(** * PerspectiveWidget (perspective-jupyterlab, [psp_widget.ts])

    A shallow embedding of the Lumino widget that wraps a
    [<perspective-viewer>] element, together with the part of the
    JavaScript runtime the widget relies on: [JSON.stringify] /
    [JSON.parse] on JSON values, element attributes and class lists.

    Layout: Part I holds the definitions (runtime model, then the widget
    translated method by method from [psp_widget.ts]); Part II holds the
    lemmas. *)

From Stdlib Require Import ZArith NArith List Ascii String Decimal Bool Lia.
From Stdlib Require Import DecimalN DecimalPos.
From stdpp Require Import base option gmap strings list.

Local Open Scope Z_scope.

(* ===================================================================== *)
(** * Part I.  Definitions                                                *)
(* ===================================================================== *)

(** ** The JavaScript runtime: JSON *)

Module JSON.

(** The numbers that are not finite. *)
Inductive nonfinite : Type := NaN | Infinity | NegInfinity.

(** JavaScript values that [JSON.stringify] writes.  A string is the
    UTF-8 text of a JavaScript string (any string without a lone
    surrogate has one).  A finite number is an integer, [JNum z], or
    has a fraction, [JFrac m p]: the number [m / 10^p], where 10 does
    not divide [m]; which of these are JavaScript numbers is said by
    [wf].  The three numbers that are not finite are kept apart.  An
    object is the list of its own properties in property enumeration
    order. *)
Unset Elimination Schemes.
Inductive value : Type :=
| JNull
| JBool (b : bool)
| JNum (z : Z)
| JFrac (m : Z) (p : positive)
| JNonFinite (x : nonfinite)
| JStr (s : string)
| JArr (elems : list value)
| JObj (props : list (string * value)).
Set Elimination Schemes.

Definition object : Type := list (string * value).

(** Induction over values with the nested lists unfolded. *)
Definition value_ind (P : value -> Prop)
    (Hnull : P JNull)
    (Hbool : forall b, P (JBool b))
    (Hnum : forall z, P (JNum z))
    (Hfrac : forall m p, P (JFrac m p))
    (Hnonfinite : forall x, P (JNonFinite x))
    (Hstr : forall s, P (JStr s))
    (Harr : forall l, Forall P l -> P (JArr l))
    (Hobj : forall o, Forall (fun kv => P (snd kv)) o -> P (JObj o)) :
  forall v, P v :=
  fix go (v : value) : P v :=
    match v with
    | JNull => Hnull
    | JBool b => Hbool b
    | JNum z => Hnum z
    | JFrac m p => Hfrac m p
    | JNonFinite x => Hnonfinite x
    | JStr s => Hstr s
    | JArr l =>
        Harr l ((fix all (l : list value) : Forall P l :=
                   match l with
                   | [] => List.Forall_nil P
                   | x :: l' => @List.Forall_cons _ P x l' (go x) (all l')
                   end) l)
    | JObj o =>
        Hobj o ((fix all (o : object) : Forall (fun kv => P (snd kv)) o :=
                   match o with
                   | [] => List.Forall_nil _
                   | kv :: o' =>
                       @List.Forall_cons _ (fun kv => P (snd kv)) kv o' (go (snd kv)) (all o')
                   end) o)
    end.

(** *** Reading characters *)

(** The input after [c] when the input starts with [c]. *)
Definition peek (c : ascii) (inp : list ascii) : option (list ascii) :=
  match inp with
  | c' :: r => if Ascii.eqb c' c then Some r else None
  | [] => None
  end.

(** *** Numbers *)

(** Every integer of magnitude up to 2^53 is a number, and a literal
    of that size is read exactly. *)
Definition MAX_EXACT_INTEGER : Z := 2 ^ 53.

(** Decimal digits of a [uint], most significant first. *)
Fixpoint print_uint (d : uint) : list ascii :=
  match d with
  | Nil => []
  | D0 d => "0"%char :: print_uint d
  | D1 d => "1"%char :: print_uint d
  | D2 d => "2"%char :: print_uint d
  | D3 d => "3"%char :: print_uint d
  | D4 d => "4"%char :: print_uint d
  | D5 d => "5"%char :: print_uint d
  | D6 d => "6"%char :: print_uint d
  | D7 d => "7"%char :: print_uint d
  | D8 d => "8"%char :: print_uint d
  | D9 d => "9"%char :: print_uint d
  end.

(** The decimal digits of a non-negative integer: [Number::toString]
    on it, when it is a number and is written in full, as the integers
    up to 2^53 are. *)
Definition print_N (n : N) : list ascii := print_uint (N.to_uint n).

(** [Number::toString] on an integer of magnitude up to 2^53: the
    sign and every digit. *)
Definition print_int (z : Z) : list ascii :=
  if z <? 0 then "-"%char :: print_N (Z.to_N (- z)) else print_N (Z.to_N z).

Definition digit_of (c : ascii) : option (uint -> uint) :=
  match c with
  | "0" => Some D0 | "1" => Some D1 | "2" => Some D2 | "3" => Some D3
  | "4" => Some D4 | "5" => Some D5 | "6" => Some D6 | "7" => Some D7
  | "8" => Some D8 | "9" => Some D9
  | _ => None
  end%char.

Definition is_digit (c : ascii) : bool :=
  match digit_of c with Some _ => true | None => false end.

(** The longest prefix of digits, and what follows it. *)
Fixpoint parse_digits (inp : list ascii) : uint * list ascii :=
  match inp with
  | [] => (Nil, [])
  | c :: r =>
      match digit_of c with
      | Some D => let '(d, r') := parse_digits r in (D d, r')
      | None => (Nil, inp)
      end
  end.

(** [0] or a digit string without a leading zero. *)
Definition canonical (d : uint) : bool := uint_beq (unorm d) d.

(** The exponent part: [e], the sign, the digits. *)
Definition print_exponent (x : Z) : list ascii :=
  "e"%char :: (if x <? 0 then "-"%char else "+"%char) :: print_N (Z.abs_N x).

(** [Number::toString] on a number with a fraction.  [ds] are the
    digits of the number without its trailing zeros, [k] of them, and
    the number is [0.ds * 10^n]; with a fraction, [n < k].  The three
    forms are digits with a point among them, [0.] with zeros before
    the digits, and one digit before the point with an exponent. *)
Definition print_fraction (ds : list ascii) (n : Z) : list ascii :=
  if (0 <? n) && (n <=? 21) then
    take (Z.to_nat n) ds ++ "."%char :: drop (Z.to_nat n) ds
  else if (-6 <? n) && (n <=? 0) then
    "0"%char :: "."%char :: repeat "0"%char (Z.to_nat (- n)) ++ ds
  else
    match ds with
    | [] => []
    | [d] => d :: print_exponent (n - 1)
    | d :: rest => d :: "."%char :: rest ++ print_exponent (n - 1)
    end.

(** [Number::toString] on [m / 10^p]. *)
Definition print_frac (m : Z) (p : positive) : list ascii :=
  let ds := print_N (Z.abs_N m) in
  let text := print_fraction ds (Z.of_nat (length ds) - Z.pos p) in
  if m <? 0 then "-"%char :: text else text.

(** The longest prefix of digits as it is written, and what follows
    it. *)
Fixpoint span_digits (inp : list ascii) : list ascii * list ascii :=
  match inp with
  | [] => ([], [])
  | c :: r =>
      if is_digit c then let '(ds, r') := span_digits r in (c :: ds, r')
      else ([], inp)
  end.

Definition digit_value (c : ascii) : N := (N_of_ascii c - 48)%N.

Definition digits_value (ds : list ascii) : N :=
  fold_left (fun acc c => acc * 10 + digit_value c)%N ds 0%N.

(** One digit, or digits without a leading zero. *)
Definition canonical_digits (ds : list ascii) : bool :=
  match ds with
  | [] => false
  | [_] => true
  | c :: _ => negb (Ascii.eqb c "0")
  end.

(** The digits after a decimal point, none when there is no point. *)
Definition parse_fraction (inp : list ascii)
  : option (list ascii * list ascii) :=
  match peek "." inp with
  | Some r =>
      match span_digits r with
      | ([], _) => None
      | (ds, r') => Some (ds, r')
      end
  | None => Some ([], inp)
  end.

(** The exponent, 0 when none is written. *)
Definition parse_exponent (inp : list ascii) : option (Z * list ascii) :=
  match inp with
  | [] => Some (0, [])
  | c :: r =>
      if (Ascii.eqb c "e" || Ascii.eqb c "E")%char then
        let '(neg, r1) :=
          match r with
          | s :: r1 =>
              if Ascii.eqb s "-"%char then (true, r1)
              else if Ascii.eqb s "+"%char then (false, r1)
              else (false, r)
          | [] => (false, r)
          end in
        match span_digits r1 with
        | ([], _) => None
        | (ds, r2) =>
            let x := Z.of_N (digits_value ds) in
            Some (if neg then - x else x, r2)
        end
      else Some (0, inp)
  end.

(** [M * 10^e] with the trailing zeros of [M] taken into the exponent
    as long as it is negative. *)
Fixpoint strip_zeros (fuel : nat) (M : N) (e : Z) : N * Z :=
  match fuel with
  | O => (M, e)
  | S fuel =>
      if (e <? 0) && (M mod 10 =? 0)%N
      then strip_zeros fuel (M / 10)%N (e + 1)
      else (M, e)
  end.

(** A number with a fraction written with up to 15 digits, and not
    below 10^-300 in magnitude, is the shortest decimal that reads as
    the number nearest to it: it is that number's text, and the number
    is what its text reads as. *)
Definition MAX_DIGITS : N := 15.
Definition MAX_PLACES : Z := 300.

Definition signed (neg : bool) (n : N) : Z :=
  if neg then - Z.of_N n else Z.of_N n.

(** The number written with the digits [ds] and the exponent [e]: the
    digits as an integer, times [10^e]; negated if [neg].  [None] for a
    number the model does not have: an integer beyond 2^53, a fraction
    of more than 15 digits or more than 300 places. *)
Definition number_of (neg : bool) (ds : list ascii) (e : Z) : option value :=
  if (digits_value ds =? 0)%N then Some (JNum 0)
  else
    let '(M, e) := strip_zeros (length ds) (digits_value ds) e in
    if 0 <=? e then
      if e <=? 16 then
        if Z.of_N M * 10 ^ e <=? MAX_EXACT_INTEGER
        then Some (JNum (signed neg M * 10 ^ e)) else None
      else None
    else
      if (M <? 10 ^ MAX_DIGITS)%N && (- e <=? MAX_PLACES)
      then Some (JFrac (signed neg M) (Z.to_pos (- e))) else None.

(** JSON number literal after its sign: the digits of the integer
    part, an optional fraction and an optional exponent. *)
Definition parse_unsigned (neg : bool) (inp : list ascii)
  : option (value * list ascii) :=
  let '(ids, r1) := span_digits inp in
  if canonical_digits ids then
    match parse_fraction r1 with
    | Some (fds, r2) =>
        match parse_exponent r2 with
        | Some (x, r3) =>
            match number_of neg (ids ++ fds) (x - Z.of_nat (length fds)) with
            | Some v => Some (v, r3)
            | None => None
            end
        | None => None
        end
    | None => None
    end
  else None.

(** JSON number literal: an optional minus sign, then the rest. *)
Definition parse_number (inp : list ascii) : option (value * list ascii) :=
  match peek "-" inp with
  | Some r => parse_unsigned true r
  | None => parse_unsigned false inp
  end.

(** *** Strings *)

(** The quotation mark, U+0022. *)
Definition dquote : ascii := Eval cbv in ascii_of_N 34.

Definition hex_digit (n : N) : ascii :=
  match n with
  | 0 => "0" | 1 => "1" | 2 => "2" | 3 => "3" | 4 => "4" | 5 => "5"
  | 6 => "6" | 7 => "7" | 8 => "8" | 9 => "9" | 10 => "a" | 11 => "b"
  | 12 => "c" | 13 => "d" | 14 => "e" | _ => "f"
  end%N%char.

Definition hex_value (c : ascii) : option N :=
  let n := N_of_ascii c in
  (if (48 <=? n) && (n <=? 57) then Some (n - 48)          (* 0-9 *)
   else if (97 <=? n) && (n <=? 102) then Some (n - 87)    (* a-f *)
   else if (65 <=? n) && (n <=? 70) then Some (n - 55)     (* A-F *)
   else None)%N.

(** [QuoteJSONString], one byte of the UTF-8 text: the code points
    below U+0020, the quotation mark and the backslash are escaped, and
    every other code point is written as it is. *)
Definition escape_char (c : ascii) : list ascii :=
  let n := N_of_ascii c in
  (if (n =? 8)%N then ["\"; "b"]
  else if (n =? 9)%N then ["\"; "t"]
  else if (n =? 10)%N then ["\"; "n"]
  else if (n =? 12)%N then ["\"; "f"]
  else if (n =? 13)%N then ["\"; "r"]
  else if (n =? 34)%N then ["\"; dquote]
  else if (n =? 92)%N then ["\"; "\"]
  else if (n <? 32)%N then
    ["\"; "u"; "0"; "0"; hex_digit (n / 16); hex_digit (n mod 16)]
  else [c])%char.

Fixpoint escape (s : string) : list ascii :=
  match s with
  | EmptyString => []
  | String c s' => escape_char c ++ escape s'
  end.

Definition quote (s : string) : list ascii :=
  dquote :: escape s ++ [dquote].

(** The character an escape letter stands for. *)
Definition unescape (c : ascii) : option ascii :=
  if Ascii.eqb c dquote then Some dquote else
  match c with
  | "\" => Some "\"
  | "/" => Some "/"
  | "b" => Some (ascii_of_N 8)
  | "f" => Some (ascii_of_N 12)
  | "n" => Some (ascii_of_N 10)
  | "r" => Some (ascii_of_N 13)
  | "t" => Some (ascii_of_N 9)
  | _ => None
  end%char.

Definition hex4 (a b c d : ascii) : option N :=
  match hex_value a, hex_value b, hex_value c, hex_value d with
  | Some x, Some y, Some z, Some w => Some (((x * 16 + y) * 16 + z) * 16 + w)%N
  | _, _, _, _ => None
  end.

(** The UTF-8 text of a code point. *)
Definition utf8 (n : N) : list ascii :=
  (if n <? 128 then [ascii_of_N n]
   else if n <? 2048 then
     [ascii_of_N (192 + n / 64); ascii_of_N (128 + n mod 64)]
   else if n <? 65536 then
     [ascii_of_N (224 + n / 4096); ascii_of_N (128 + (n / 64) mod 64);
      ascii_of_N (128 + n mod 64)]
   else
     [ascii_of_N (240 + n / 262144); ascii_of_N (128 + (n / 4096) mod 64);
      ascii_of_N (128 + (n / 64) mod 64); ascii_of_N (128 + n mod 64)])%N.

Definition is_high_surrogate (n : N) : bool := ((55296 <=? n) && (n <? 56320))%N.
Definition is_low_surrogate (n : N) : bool := ((56320 <=? n) && (n <? 57344))%N.

(** The low surrogate escaped as [\uXXXX] by these six characters. *)
Definition low_surrogate (b u l1 l2 l3 l4 : ascii) : option N :=
  if Ascii.eqb b "\"%char && Ascii.eqb u "u"%char then
    match hex4 l1 l2 l3 l4 with
    | Some m => if is_low_surrogate m then Some m else None
    | None => None
    end
  else None.

(** The code point of a surrogate pair. *)
Definition pair_code_point (n m : N) : N :=
  (65536 + (n - 55296) * 1024 + (m - 56320))%N.

Fixpoint prepend (l : list ascii) (s : string) : string :=
  match l with
  | [] => s
  | c :: l' => String c (prepend l' s)
  end.

(** The rest of a string literal after its opening quote.  A [\u]
    escape gives the UTF-8 text of its code point, a high surrogate
    together with the low surrogate escaped next to it.  [None] also
    for a surrogate escaped on its own: the string it stands for has no
    UTF-8 text. *)
Fixpoint parse_string (inp : list ascii) : option (string * list ascii) :=
  match inp with
  | [] => None
  | c :: r =>
      if Ascii.eqb c dquote then Some (EmptyString, r)
      else if Ascii.eqb c "\"%char then
        match r with
        | [] => None
        | e :: r1 =>
            if Ascii.eqb e "u"%char then
              match r1 with
              | h1 :: h2 :: h3 :: h4 :: r2 =>
                  match hex4 h1 h2 h3 h4 with
                  | Some n =>
                      if is_high_surrogate n then
                        match r2 with
                        | b :: u :: l1 :: l2 :: l3 :: l4 :: r3 =>
                            match low_surrogate b u l1 l2 l3 l4 with
                            | Some m =>
                                match parse_string r3 with
                                | Some (s, r4) =>
                                    Some (prepend (utf8 (pair_code_point n m)) s, r4)
                                | None => None
                                end
                            | None => None
                            end
                        | _ => None
                        end
                      else if is_low_surrogate n then None
                      else
                        match parse_string r2 with
                        | Some (s, r3) => Some (prepend (utf8 n) s, r3)
                        | None => None
                        end
                  | None => None
                  end
              | _ => None
              end
            else
              match unescape e with
              | Some x =>
                  match parse_string r1 with
                  | Some (s, r2) => Some (String x s, r2)
                  | None => None
                  end
              | None => None
              end
        end
      else if (N_of_ascii c <? 32)%N then None
      else
        match parse_string r with
        | Some (s, r') => Some (String c s, r')
        | None => None
        end
  end.

(** *** Objects: own properties in enumeration order *)

(** The array index a property key denotes, if any: a canonical
    numeric string below 2^32 - 1. *)
Definition index_of (k : string) : option N :=
  let '(d, r) := parse_digits (list_ascii_of_string k) in
  match r with
  | [] =>
      if canonical d && (N.of_uint d <? 2 ^ 32 - 1)%N
      then Some (N.of_uint d) else None
  | _ :: _ => None
  end.

Fixpoint obj_replace (k : string) (v : value) (o : object) : option object :=
  match o with
  | [] => None
  | (k', v') :: o' =>
      if String.eqb k k' then Some ((k', v) :: o')
      else match obj_replace k v o' with
           | Some o'' => Some ((k', v') :: o'')
           | None => None
           end
  end.

Fixpoint obj_insert_index (n : N) (k : string) (v : value) (o : object) : object :=
  match o with
  | [] => [(k, v)]
  | (k', v') :: o' =>
      match index_of k' with
      | Some m =>
          if (m <? n)%N then (k', v') :: obj_insert_index n k v o'
          else (k, v) :: o
      | None => (k, v) :: o
      end
  end.

(** [CreateDataProperty]: an existing property keeps its place and
    takes the new value; a new array index goes among the indices in
    ascending order; any other new key goes last. *)
Definition obj_define (k : string) (v : value) (o : object) : object :=
  match obj_replace k v o with
  | Some o' => o'
  | None =>
      match index_of k with
      | Some n => obj_insert_index n k v o
      | None => o ++ [(k, v)]
      end
  end.

(** [k] is enumerated before [k']. *)
Definition key_before (k k' : string) : bool :=
  match index_of k, index_of k' with
  | Some n, Some m => (n <? m)%N
  | Some _, None => true
  | None, Some _ => false
  | None, None => negb (String.eqb k k')
  end.

Fixpoint keys_ordered (ks : list string) : bool :=
  match ks with
  | [] => true
  | k :: ks' => forallb (key_before k) ks' && keys_ordered ks'
  end.

(** The values of the model that are JavaScript values and that JSON
    carries: an integer has magnitude up to 2^53; a number with a
    fraction has up to 15 digits and up to 300 places; no number is
    [NaN] or an infinity; and the properties of an object are distinct
    and listed in enumeration order. *)
Fixpoint wf (v : value) : bool :=
  match v with
  | JNum z => (- MAX_EXACT_INTEGER <=? z) && (z <=? MAX_EXACT_INTEGER)
  | JFrac m p =>
      negb (Z.abs_N m mod 10 =? 0)%N && (Z.abs_N m <? 10 ^ MAX_DIGITS)%N
      && (Z.pos p <=? MAX_PLACES)
  | JNonFinite _ => false
  | JArr l => forallb wf l
  | JObj o => keys_ordered (map fst o) && forallb (fun kv => wf (snd kv)) o
  | _ => true
  end.

(** *** [JSON.stringify] (no indentation)

    [SerializeJSONProperty] writes a number that is not finite as
    [null]. *)

Fixpoint join_comma (parts : list (list ascii)) : list ascii :=
  match parts with
  | [] => []
  | [p] => p
  | p :: ps => p ++ ","%char :: join_comma ps
  end.

Fixpoint print (v : value) : list ascii :=
  match v with
  | JNull => ["n"; "u"; "l"; "l"]
  | JBool true => ["t"; "r"; "u"; "e"]
  | JBool false => ["f"; "a"; "l"; "s"; "e"]
  | JNum z => print_int z
  | JFrac m p => print_frac m p
  | JNonFinite _ => ["n"; "u"; "l"; "l"]
  | JStr s => quote s
  | JArr l => "[" :: join_comma (map print l) ++ ["]"]
  | JObj o =>
      "{" :: join_comma (map (fun kv => quote (fst kv) ++ ":" :: print (snd kv)) o)
          ++ ["}"]
  end%char.

Definition stringify (v : value) : string := string_of_list_ascii (print v).

(** *** [JSON.parse] *)

Definition is_ws (c : ascii) : bool :=
  (Ascii.eqb c " " || Ascii.eqb c (ascii_of_N 9)
   || Ascii.eqb c (ascii_of_N 10) || Ascii.eqb c (ascii_of_N 13))%char.

Fixpoint skip_ws (inp : list ascii) : list ascii :=
  match inp with
  | c :: r => if is_ws c then skip_ws r else inp
  | [] => []
  end.

Definition starts_number (c : ascii) : bool := is_digit c || Ascii.eqb c "-"%char.

Definition literal (word : list ascii) (v : value) (inp : list ascii)
  : option (value * list ascii) :=
  if decide (take (length word) inp = word)
  then Some (v, drop (length word) inp) else None.

(** Recursive descent; [fuel] bounds the number of calls and is taken
    from the length of the text in [parse]. *)
Fixpoint parse_value (fuel : nat) (inp : list ascii) {struct fuel}
  : option (value * list ascii) :=
  match fuel with
  | O => None
  | S fuel =>
      match skip_ws inp with
      | [] => None
      | c :: r =>
          if starts_number c then
            parse_number (c :: r)
          else if Ascii.eqb c dquote then
            match parse_string r with
            | Some (s, r') => Some (JStr s, r')
            | None => None
            end
          else if Ascii.eqb c "["%char then
            match peek "]" (skip_ws r) with
            | Some r' => Some (JArr [], r')
            | None =>
                match parse_elements fuel (skip_ws r) with
                | Some (l, r') => Some (JArr l, r')
                | None => None
                end
            end
          else if Ascii.eqb c "{"%char then
            match peek "}" (skip_ws r) with
            | Some r' => Some (JObj [], r')
            | None =>
                match parse_members fuel (skip_ws r) [] with
                | Some (o, r') => Some (JObj o, r')
                | None => None
                end
            end
          else if Ascii.eqb c "n"%char then literal ["u"; "l"; "l"]%char JNull r
          else if Ascii.eqb c "t"%char then literal ["r"; "u"; "e"]%char (JBool true) r
          else if Ascii.eqb c "f"%char then literal ["a"; "l"; "s"; "e"]%char (JBool false) r
          else None
      end
  end

(** One or more elements up to and including the closing bracket. *)
with parse_elements (fuel : nat) (inp : list ascii) {struct fuel}
  : option (list value * list ascii) :=
  match fuel with
  | O => None
  | S fuel =>
      match parse_value fuel inp with
      | Some (v, r) =>
          match skip_ws r with
          | c :: r' =>
              if Ascii.eqb c ","%char then
                match parse_elements fuel r' with
                | Some (l, r'') => Some (v :: l, r'')
                | None => None
                end
              else if Ascii.eqb c "]"%char then Some ([v], r')
              else None
          | [] => None
          end
      | None => None
      end
  end

(** One or more members up to and including the closing brace; [acc]
    is the object built so far. *)
with parse_members (fuel : nat) (inp : list ascii) (acc : object) {struct fuel}
  : option (object * list ascii) :=
  match fuel with
  | O => None
  | S fuel =>
      match skip_ws inp with
      | c :: r =>
          if Ascii.eqb c dquote then
            match parse_string r with
            | Some (k, r1) =>
                match skip_ws r1 with
                | c1 :: r2 =>
                    if Ascii.eqb c1 ":"%char then
                      match parse_value fuel r2 with
                      | Some (v, r3) =>
                          let acc' := obj_define k v acc in
                          match skip_ws r3 with
                          | c3 :: r4 =>
                              if Ascii.eqb c3 ","%char then parse_members fuel r4 acc'
                              else if Ascii.eqb c3 "}"%char then Some (acc', r4)
                              else None
                          | [] => None
                          end
                      | None => None
                      end
                    else None
                | [] => None
                end
            | None => None
            end
          else None
      | [] => None
      end
  end.

(** [JSON.parse(text)]: [Some v] when the call returns [v]; [None]
    when it throws a [SyntaxError] or the text denotes a value outside
    this model (an integer beyond 2^53, a fraction of more than 15
    digits, a string with a lone surrogate). *)
Definition parse (text : string) : option value :=
  let inp := list_ascii_of_string text in
  match parse_value (S (length inp)) inp with
  | Some (v, r) =>
      match skip_ws r with
      | [] => Some v
      | _ :: _ => None
      end
  | None => None
  end.

(** *** Notions used in the round-trip proof *)

(** What may follow a value inside a text written by [print]. *)
Definition delimited (r : list ascii) : bool :=
  match r with
  | [] => true
  | c :: _ => (Ascii.eqb c "," || Ascii.eqb c "]" || Ascii.eqb c "}")%char
  end.

(** The characters a value starts with. *)
Definition starts_value (c : ascii) : bool :=
  (starts_number c || Ascii.eqb c dquote || Ascii.eqb c "[" || Ascii.eqb c "{"
   || Ascii.eqb c "n" || Ascii.eqb c "t" || Ascii.eqb c "f")%char.

(** One member of an object as [print] writes it. *)
Definition print_member (kv : string * value) : list ascii :=
  quote (fst kv) ++ ":"%char :: print (snd kv).

(** [v] is read back from its printed form, whatever delimited text
    follows it and given fuel for its length. *)
Definition reads_back (v : value) : Prop :=
  forall fuel r,
    (length (print v) <= fuel)%nat -> delimited r = true ->
    parse_value fuel (print v ++ r) = Some (v, r).

End JSON.

Import JSON.

(** ** The JavaScript runtime: truthiness and [||] *)

(** [ToBoolean] at the types the widget's options have. *)
Class Truthy (A : Type) := truthy : A -> bool.

(** The empty string is falsy. *)
#[global] Instance string_truthy : Truthy string :=
  fun s => negb (String.eqb s EmptyString).
#[global] Instance bool_truthy : Truthy bool := fun b => b.
(** Arrays and objects are truthy, also when empty. *)
#[global] Instance list_truthy {A} : Truthy (list A) := fun _ => true.

(** [x || d] where [x] is an optional property ([None]: [undefined] or
    [null]) and [d] a value. *)
Definition js_or {A} `{Truthy A} (x : option A) (d : A) : A :=
  match x with
  | Some a => if truthy a then a else d
  | None => d
  end.

(** ** The DOM *)

Module Dom.

(** An element as far as the widget touches it: its class list (a
    [DOMTokenList]: ordered, without repetition), which is how the
    widget reads and writes the [class] attribute; its other
    attributes; and the tag names of its children.  [attributes] does
    not hold [class]: the widget names no attribute [class], and the
    attribute functions below are the DOM's at every other name. *)
Record Element : Type := {
  attributes : gmap string string;
  classList : list string;
  children : list string
}.

(** [document.createElement(tag)] *)
Definition createElement : Element :=
  {| attributes := ∅; classList := []; children := [] |}.

Definition setAttribute (name val : string) (e : Element) : Element :=
  {| attributes := <[name := val]> (attributes e);
     classList := classList e; children := children e |}.

Definition removeAttribute (name : string) (e : Element) : Element :=
  {| attributes := delete name (attributes e);
     classList := classList e; children := children e |}.

(** [None] is JavaScript's [null]. *)
Definition getAttribute (name : string) (e : Element) : option string :=
  attributes e !! name.

Definition hasAttribute (name : string) (e : Element) : bool :=
  bool_decide (is_Some (attributes e !! name)).

Definition classList_add (c : string) (e : Element) : Element :=
  {| attributes := attributes e;
     classList := if bool_decide (c ∈ classList e) then classList e
                  else classList e ++ [c];
     children := children e |}.

Definition classList_remove (c : string) (e : Element) : Element :=
  {| attributes := attributes e;
     classList := filter (fun c' => c' ≠ c) (classList e);
     children := children e |}.

Definition classList_contains (c : string) (e : Element) : bool :=
  bool_decide (c ∈ classList e).

(** [while (e.lastChild) e.removeChild(e.lastChild)] *)
Definition removeChildren (e : Element) : Element :=
  {| attributes := attributes e; classList := classList e; children := [] |}.

Definition appendChild (tag : string) (e : Element) : Element :=
  {| attributes := attributes e; classList := classList e;
     children := children e ++ [tag] |}.

End Dom.

Import Dom.

(** [JSON.parse(e.getAttribute(name))]: an absent attribute reads as
    [null], which [JSON.parse] converts to the text [null]. *)
Definition parse_attribute (a : option string) : option value :=
  JSON.parse (match a with Some s => s | None => "null" end).

(** ** [./utils]: the constants the widget imports *)

Class Utils : Type := {
  MIME_TYPE : string;
  PSP_CLASS : string;
  PSP_CONTAINER_CLASS : string;
  PSP_CONTAINER_CLASS_DARK : string
}.

(** ** The widget *)

Section Widget.

(** [Table] and [TableData] of [@finos/perspective]. *)
Context {Table TableData : Type}.
Context `{Utils}.

(** Lumino messages. *)
Record Message : Type := { msg_type : string }.
Record ResizeMessage : Type := { width : Z; height : Z }.

(** The methods of the viewer element (and of its table) the widget
    calls, with their arguments: [viewer_table_update d] is
    [viewer.table.update(d)], and so on.  The viewer and its table are
    collaborators outside this file; the calls made on them are
    recorded and what they do or answer is not modelled. *)
Inductive ViewerCall : Type :=
| viewer_notifyResize
| viewer_toggleConfig
| viewer_focus
| viewer_save
| viewer_restore (config : object)
| viewer_load (table : Table)
| viewer_table_update (data : TableData)
| viewer_table_clear
| viewer_table_replace (data : TableData)
| viewer_delete
| viewer_getEditPort
| viewer_restyleElement
| viewer_addEventListener (type : string).

(** [PerspectiveWidgetOptions extends PerspectiveViewerOptions]; every
    field is optional, [None] standing for an omitted (or [undefined],
    or [null]) one.  [Columns], [Pivots], [Sort], [Filters] and
    [Expressions] are array types of the viewer package and
    [Aggregates] an object type; their values are taken as arrays and
    objects of JSON values. *)
Record PerspectiveWidgetOptions : Type := {
  opt_plugin : option string;
  opt_columns : option (list value);
  opt_row_pivots : option (list value);
  opt_row_pivots_dashed : option (list value);      (* ["row-pivots"] *)
  opt_column_pivots : option (list value);
  opt_column_pivots_dashed : option (list value);   (* ["column-pivots"] *)
  opt_aggregates : option object;
  opt_sort : option (list value);
  opt_filters : option (list value);
  opt_expressions : option (list value);
  opt_plugin_config : option object;
  opt_dark : option bool;
  opt_editable : option bool;
  opt_server : option bool;
  opt_client : option bool;
  opt_selectable : option bool;
  opt_title : option string;
  opt_bindto : option Element
}.

(** [{}] *)
Definition no_options : PerspectiveWidgetOptions :=
  {| opt_plugin := None; opt_columns := None; opt_row_pivots := None;
     opt_row_pivots_dashed := None; opt_column_pivots := None;
     opt_column_pivots_dashed := None; opt_aggregates := None;
     opt_sort := None; opt_filters := None; opt_expressions := None;
     opt_plugin_config := None; opt_dark := None; opt_editable := None;
     opt_server := None; opt_client := None; opt_selectable := None;
     opt_title := None; opt_bindto := None |}.

(** The state of a widget: what Lumino's [Widget] keeps ([node], the
    two flags, [title], [id]), the viewer element with the calls made
    on it so far (oldest first), and the private fields.  A private
    field is [None] while it is [undefined] (or [null]). *)
Record PerspectiveWidget : Type := {
  node : Element;
  isAttached : bool;
  isVisible : bool;
  title_label : string;
  title_caption : string;
  id : string;
  _viewer : Element;
  viewer_calls : list ViewerCall;
  _plugin_config : option object;
  _client : option bool;
  _server : option bool;
  _dark : option bool;
  _editable : option bool
}.

(** *** Updates of one part of the state *)

Definition with_node (f : Element -> Element) (w : PerspectiveWidget) :=
  {| node := f (node w); isAttached := isAttached w; isVisible := isVisible w;
     title_label := title_label w; title_caption := title_caption w; id := id w;
     _viewer := _viewer w; viewer_calls := viewer_calls w;
     _plugin_config := _plugin_config w; _client := _client w;
     _server := _server w; _dark := _dark w; _editable := _editable w |}.

Definition with_viewer (f : Element -> Element) (w : PerspectiveWidget) :=
  {| node := node w; isAttached := isAttached w; isVisible := isVisible w;
     title_label := title_label w; title_caption := title_caption w; id := id w;
     _viewer := f (_viewer w); viewer_calls := viewer_calls w;
     _plugin_config := _plugin_config w; _client := _client w;
     _server := _server w; _dark := _dark w; _editable := _editable w |}.

(** A call [this.viewer.m(args)] *)
Definition call (c : ViewerCall) (w : PerspectiveWidget) :=
  {| node := node w; isAttached := isAttached w; isVisible := isVisible w;
     title_label := title_label w; title_caption := title_caption w; id := id w;
     _viewer := _viewer w; viewer_calls := viewer_calls w ++ [c];
     _plugin_config := _plugin_config w; _client := _client w;
     _server := _server w; _dark := _dark w; _editable := _editable w |}.

(** *** Getters and setters

    A getter that goes through [JSON.parse] gives [None] where the call
    throws (or where the text is outside the JSON model, see
    [JSON.parse]). *)

Definition viewer (w : PerspectiveWidget) : Element := _viewer w.

Definition name (w : PerspectiveWidget) : string := title_label w.

Definition get_plugin (w : PerspectiveWidget) : option string :=
  getAttribute "plugin" (viewer w).
Definition set_plugin (plugin : string) (w : PerspectiveWidget) :=
  with_viewer (setAttribute "plugin" plugin) w.

Definition get_columns (w : PerspectiveWidget) : option value :=
  parse_attribute (getAttribute "columns" (viewer w)).
Definition set_columns (columns : list value) (w : PerspectiveWidget) :=
  if (0 <? length columns)%nat
  then with_viewer (setAttribute "columns" (JSON.stringify (JArr columns))) w
  else with_viewer (removeAttribute "columns") w.

Definition get_row_pivots (w : PerspectiveWidget) : option value :=
  parse_attribute (getAttribute "row-pivots" (viewer w)).
Definition set_row_pivots (row_pivots : list value) (w : PerspectiveWidget) :=
  with_viewer (setAttribute "row-pivots" (JSON.stringify (JArr row_pivots))) w.

Definition get_column_pivots (w : PerspectiveWidget) : option value :=
  parse_attribute (getAttribute "column-pivots" (viewer w)).
Definition set_column_pivots (column_pivots : list value) (w : PerspectiveWidget) :=
  with_viewer (setAttribute "column-pivots" (JSON.stringify (JArr column_pivots))) w.

Definition get_aggregates (w : PerspectiveWidget) : option value :=
  parse_attribute (getAttribute "aggregates" (viewer w)).
Definition set_aggregates (aggregates : object) (w : PerspectiveWidget) :=
  with_viewer (setAttribute "aggregates" (JSON.stringify (JObj aggregates))) w.

Definition get_sort (w : PerspectiveWidget) : option value :=
  parse_attribute (getAttribute "sort" (viewer w)).
Definition set_sort (sort : list value) (w : PerspectiveWidget) :=
  with_viewer (setAttribute "sort" (JSON.stringify (JArr sort))) w.

Definition get_expressions (w : PerspectiveWidget) : option value :=
  parse_attribute (getAttribute "expressions" (viewer w)).
Definition set_expressions (expressions : list value) (w : PerspectiveWidget) :=
  if (0 <? length expressions)%nat
  then with_viewer (setAttribute "expressions" (JSON.stringify (JArr expressions))) w
  else with_viewer (removeAttribute "expressions") w.

Definition get_filters (w : PerspectiveWidget) : option value :=
  parse_attribute (getAttribute "filters" (viewer w)).
Definition set_filters (filters : list value) (w : PerspectiveWidget) :=
  if (0 <? length filters)%nat
  then with_viewer (setAttribute "filters" (JSON.stringify (JArr filters))) w
  else with_viewer (removeAttribute "filters") w.

Definition get_plugin_config (w : PerspectiveWidget) : option object :=
  _plugin_config w.
Definition set_plugin_config (plugin_config : option object) (w : PerspectiveWidget) :=
  let w :=
    {| node := node w; isAttached := isAttached w; isVisible := isVisible w;
       title_label := title_label w; title_caption := title_caption w; id := id w;
       _viewer := _viewer w; viewer_calls := viewer_calls w;
       _plugin_config := plugin_config; _client := _client w;
       _server := _server w; _dark := _dark w; _editable := _editable w |} in
  match _plugin_config w with
  | Some pc => call (viewer_restore [("plugin_config", JObj pc)]) w
  | None => w
  end.

Definition get_client (w : PerspectiveWidget) : option bool := _client w.
Definition set_client (client : bool) (w : PerspectiveWidget) :=
  {| node := node w; isAttached := isAttached w; isVisible := isVisible w;
     title_label := title_label w; title_caption := title_caption w; id := id w;
     _viewer := _viewer w; viewer_calls := viewer_calls w;
     _plugin_config := _plugin_config w; _client := Some client;
     _server := _server w; _dark := _dark w; _editable := _editable w |}.

Definition get_server (w : PerspectiveWidget) : option bool := _server w.
Definition set_server (server : bool) (w : PerspectiveWidget) :=
  {| node := node w; isAttached := isAttached w; isVisible := isVisible w;
     title_label := title_label w; title_caption := title_caption w; id := id w;
     _viewer := _viewer w; viewer_calls := viewer_calls w;
     _plugin_config := _plugin_config w; _client := _client w;
     _server := Some server; _dark := _dark w; _editable := _editable w |}.

Definition get_dark (w : PerspectiveWidget) : option bool := _dark w.
Definition set_dark (dark : bool) (w : PerspectiveWidget) :=
  let w :=
    {| node := node w; isAttached := isAttached w; isVisible := isVisible w;
       title_label := title_label w; title_caption := title_caption w; id := id w;
       _viewer := _viewer w; viewer_calls := viewer_calls w;
       _plugin_config := _plugin_config w; _client := _client w;
       _server := _server w; _dark := Some dark; _editable := _editable w |} in
  let w :=
    if dark then
      with_node (classList_remove PSP_CONTAINER_CLASS)
        (with_node (classList_add PSP_CONTAINER_CLASS_DARK) w)
    else
      with_node (classList_remove PSP_CONTAINER_CLASS_DARK)
        (with_node (classList_add PSP_CONTAINER_CLASS) w) in
  if isAttached w then call viewer_restyleElement w else w.

Definition get_editable (w : PerspectiveWidget) : option bool := _editable w.
Definition set_editable (editable : bool) (w : PerspectiveWidget) :=
  let w :=
    {| node := node w; isAttached := isAttached w; isVisible := isVisible w;
       title_label := title_label w; title_caption := title_caption w; id := id w;
       _viewer := _viewer w; viewer_calls := viewer_calls w;
       _plugin_config := _plugin_config w; _client := _client w;
       _server := _server w; _dark := _dark w; _editable := Some editable |} in
  if editable then with_viewer (setAttribute "editable" EmptyString) w
  else with_viewer (removeAttribute "editable") w.

Definition get_selectable (w : PerspectiveWidget) : bool :=
  hasAttribute "selectable" (viewer w).
Definition set_selectable (row_selection : bool) (w : PerspectiveWidget) :=
  if row_selection then with_viewer (setAttribute "selectable" EmptyString) w
  else with_viewer (removeAttribute "selectable") w.

(** *** [_set_attributes] *)

Definition _set_attributes (options : PerspectiveWidgetOptions)
    (w : PerspectiveWidget) : PerspectiveWidget :=
  let plugin := js_or (opt_plugin options) "datagrid" in
  let columns := js_or (opt_columns options) [] in
  let row_pivots :=
    js_or (opt_row_pivots options) (js_or (opt_row_pivots_dashed options) []) in
  let column_pivots :=
    js_or (opt_column_pivots options) (js_or (opt_column_pivots_dashed options) []) in
  let aggregates := js_or (opt_aggregates options) [] in
  let sort := js_or (opt_sort options) [] in
  let filters := js_or (opt_filters options) [] in
  let expressions :=
    js_or (opt_expressions options) (js_or (opt_expressions options) []) in
  let plugin_config := js_or (opt_plugin_config options) [] in
  let dark := js_or (opt_dark options) false in
  let editable := js_or (opt_editable options) false in
  let server := js_or (opt_server options) false in
  let client := js_or (opt_client options) false in
  let selectable := js_or (opt_selectable options) false in
  let w := set_server server w in
  let w := set_client client w in
  let w := set_dark dark w in
  let w := set_editable editable w in
  let w := set_plugin plugin w in
  let w := set_plugin_config (Some plugin_config) w in
  let w := set_row_pivots row_pivots w in
  let w := set_column_pivots column_pivots w in
  let w := set_sort sort w in
  let w := set_columns columns w in
  let w := set_selectable selectable w in
  let w := set_aggregates aggregates w in
  let w := set_expressions expressions w in
  let w := set_filters filters w in
  w.

(** *** Lumino overrides *)

Definition notifyResize (w : PerspectiveWidget) : PerspectiveWidget :=
  if isVisible w then call viewer_notifyResize w else w.

Definition toggleConfig (w : PerspectiveWidget) : PerspectiveWidget :=
  if isVisible w then call viewer_toggleConfig w else w.

(** Lumino's own [onAfterShow], [onResize] and [onActivateRequest]
    ([super.on...]) are empty. *)
Definition onAfterShow (msg : Message) (w : PerspectiveWidget) : PerspectiveWidget :=
  notifyResize w.

Definition onResize (msg : ResizeMessage) (w : PerspectiveWidget) : PerspectiveWidget :=
  notifyResize w.

Definition onActivateRequest (msg : Message) (w : PerspectiveWidget) : PerspectiveWidget :=
  if isAttached w then call viewer_focus w else w.

(** *** Data operations *)

Definition save (w : PerspectiveWidget) := call viewer_save w.
Definition restore (config : object) (w : PerspectiveWidget) :=
  call (viewer_restore config) w.
Definition load (table : Table) (w : PerspectiveWidget) :=
  call (viewer_load table) w.
Definition _update (data : TableData) (w : PerspectiveWidget) :=
  call (viewer_table_update data) w.
Definition clear (w : PerspectiveWidget) := call viewer_table_clear w.
Definition replace (data : TableData) (w : PerspectiveWidget) :=
  call (viewer_table_replace data) w.
Definition delete (w : PerspectiveWidget) := call viewer_delete w.
Definition getEditPort (w : PerspectiveWidget) := call viewer_getEditPort w.

(** *** Construction *)

(** [createNode(node)]: the node as it is left, the new viewer element
    and the calls made on it.  [bound] is the test of line 407: whether
    [viewer.notifyResize] exists, which it does when the
    [perspective-viewer] custom element is defined.  The mutation
    observer installed on the node runs later, on changes of the
    node's [style] attribute, which nothing in this file makes; it is
    left out. *)
Definition createNode (bound : bool) (node : Element)
  : Element * Element * list ViewerCall :=
  let node := classList_add "p-Widget" node in
  let node := classList_add PSP_CONTAINER_CLASS node in
  let viewer := createElement in
  let viewer := classList_add PSP_CLASS viewer in
  let viewer := setAttribute "type" MIME_TYPE viewer in
  let node := removeChildren node in
  let node := appendChild "perspective-viewer" node in
  let calls := [viewer_addEventListener "contextmenu"] in
  let node := appendChild "div" node in
  let calls := if bound then calls ++ [viewer_toggleConfig] else calls in
  (node, viewer, calls).

(** The text of the module-level counter in an id: [Number::toString]
    of a non-negative integer.  The counter is a JavaScript number that
    starts at 0 and only ever grows by 1; it is modelled by a natural
    number, which is exact for the first 2^53 constructions. *)
Definition number_to_string (n : N) : string :=
  string_of_list_ascii (JSON.print_N n).

(** [new PerspectiveWidget(name, options)] with the module-level
    [_increment] before the call; returns the widget and [_increment]
    after it.

    Two things are Lumino's and the browser's, not this file's.  The
    base constructor ([super], line 43) takes the node and may add
    classes of its own to it, and it keeps the id (on the node); here
    the node goes to [createNode] as it was given and the id is a field.
    And the methods called on the viewer are taken to exist, as they do
    on the defined custom element, [bound = true]: on an element
    without them the call of [restore] from the [plugin_config] setter
    throws and no widget is returned: what is computed for
    [bound = false] is the state that call is made in, not a widget
    the program has. *)
Definition constructor (bound : bool) (name : option string)
    (options : option PerspectiveWidgetOptions) (_increment : N)
  : PerspectiveWidget * N :=
  let name := match name with Some n => n | None => "Perspective" end in
  let options := match options with Some o => o | None => no_options end in
  let node := match opt_bindto options with Some e => e | None => createElement end in
  let '(node, viewer, calls) := createNode bound node in
  let w :=
    {| node := node; isAttached := false; isVisible := false;
       title_label := name; title_caption := name;
       id := name +:+ "-" +:+ number_to_string _increment;
       _viewer := viewer; viewer_calls := calls;
       _plugin_config := None; _client := None; _server := None;
       _dark := None; _editable := None |} in
  let _increment := (_increment + 1)%N in
  (_set_attributes options w, _increment).

(** Successive constructions: each call is given by its arguments, and
    the module-level [_increment] is threaded from one call to the
    next. *)
Fixpoint construct_all (bound : bool)
    (args : list (option string * option PerspectiveWidgetOptions))
    (_increment : N) : list PerspectiveWidget :=
  match args with
  | [] => []
  | (name, options) :: rest =>
      let '(w, _increment) := constructor bound name options _increment in
      w :: construct_all bound rest _increment
  end.

(** A session: the module is loaded ([let _increment = 0]) and widgets
    are constructed one after the other. *)
Definition session (bound : bool)
    (args : list (option string * option PerspectiveWidgetOptions))
  : list PerspectiveWidget :=
  construct_all bound args 0.

(** *** Notions used in the statements *)

(** The private fields, in the order of their declarations. *)
Definition private_fields (w : PerspectiveWidget)
  : option object * option bool * option bool * option bool * option bool :=
  (_plugin_config w, _client w, _server w, _dark w, _editable w).

(** The private fields and the attributes of the viewer element are the
    same in [w] and [w']. *)
Definition same_fields_and_attributes (w w' : PerspectiveWidget) : Prop :=
  private_fields w' = private_fields w /\
  attributes (viewer w') = attributes (viewer w).

(** [w'] is [w] but for the private field [_client] (respectively
    [_server]). *)
Definition same_but_client (w w' : PerspectiveWidget) : Prop :=
  node w' = node w /\ isAttached w' = isAttached w /\ isVisible w' = isVisible w /\
  title_label w' = title_label w /\ title_caption w' = title_caption w /\
  id w' = id w /\ _viewer w' = _viewer w /\ viewer_calls w' = viewer_calls w /\
  _plugin_config w' = _plugin_config w /\ _server w' = _server w /\
  _dark w' = _dark w /\ _editable w' = _editable w.

Definition same_but_server (w w' : PerspectiveWidget) : Prop :=
  node w' = node w /\ isAttached w' = isAttached w /\ isVisible w' = isVisible w /\
  title_label w' = title_label w /\ title_caption w' = title_caption w /\
  id w' = id w /\ _viewer w' = _viewer w /\ viewer_calls w' = viewer_calls w /\
  _plugin_config w' = _plugin_config w /\ _client w' = _client w /\
  _dark w' = _dark w /\ _editable w' = _editable w.

End Widget.

(** Values of the constants of [./utils] for the examples; the lemmas
    hold for any values, those about dark mode for any two distinct
    container classes. *)
Definition sample_utils : Utils :=
  {| MIME_TYPE := "application/psp+json";
     PSP_CLASS := "PSPViewer";
     PSP_CONTAINER_CLASS := "PSPContainer";
     PSP_CONTAINER_CLASS_DARK := "PSPContainer-dark" |}.

(** The options with the empty string for [plugin], the array of the
    one string [a] for ["row-pivots"], and nothing else. *)
Definition options_dashed_pivots : PerspectiveWidgetOptions :=
  {| opt_plugin := Some EmptyString; opt_columns := None; opt_row_pivots := None;
     opt_row_pivots_dashed := Some [JStr "a"]; opt_column_pivots := None;
     opt_column_pivots_dashed := None; opt_aggregates := None;
     opt_sort := None; opt_filters := None; opt_expressions := None;
     opt_plugin_config := None; opt_dark := None; opt_editable := None;
     opt_server := None; opt_client := None; opt_selectable := None;
     opt_title := None; opt_bindto := None |}.

(** A widget for the examples: [new PerspectiveWidget()] in a fresh
    module, with tables and data left abstract. *)
Definition sample_widget : @PerspectiveWidget unit unit :=
  fst (@constructor unit unit sample_utils true None None 0).

(** ** The widget as its users drive it *)

Section Methods.

Context {Table TableData : Type}.
Context `{Utils}.

(** The calls that change a widget: the methods of the class and the
    assignments to its properties, with their arguments. *)
Inductive Method : Type :=
| call_set_attributes (options : PerspectiveWidgetOptions)
| call_onAfterShow (msg : Message)
| call_onResize (msg : ResizeMessage)
| call_onActivateRequest (msg : Message)
| call_notifyResize
| call_toggleConfig
| call_save
| call_restore (config : object)
| call_load (table : Table)
| call_update (data : TableData)
| call_clear
| call_replace (data : TableData)
| call_delete
| call_getEditPort
| assign_plugin (plugin : string)
| assign_columns (columns : list value)
| assign_row_pivots (row_pivots : list value)
| assign_column_pivots (column_pivots : list value)
| assign_aggregates (aggregates : object)
| assign_sort (sort : list value)
| assign_expressions (expressions : list value)
| assign_filters (filters : list value)
| assign_plugin_config (plugin_config : option object)
| assign_client (client : bool)
| assign_server (server : bool)
| assign_dark (dark : bool)
| assign_editable (editable : bool)
| assign_selectable (row_selection : bool).

Definition run (m : Method) (w : @PerspectiveWidget Table TableData)
  : @PerspectiveWidget Table TableData :=
  match m with
  | call_set_attributes options => _set_attributes options w
  | call_onAfterShow msg => onAfterShow msg w
  | call_onResize msg => onResize msg w
  | call_onActivateRequest msg => onActivateRequest msg w
  | call_notifyResize => notifyResize w
  | call_toggleConfig => toggleConfig w
  | call_save => save w
  | call_restore config => restore config w
  | call_load table => load table w
  | call_update data => _update data w
  | call_clear => clear w
  | call_replace data => replace data w
  | call_delete => delete w
  | call_getEditPort => getEditPort w
  | assign_plugin plugin => set_plugin plugin w
  | assign_columns columns => set_columns columns w
  | assign_row_pivots row_pivots => set_row_pivots row_pivots w
  | assign_column_pivots column_pivots => set_column_pivots column_pivots w
  | assign_aggregates aggregates => set_aggregates aggregates w
  | assign_sort sort => set_sort sort w
  | assign_expressions expressions => set_expressions expressions w
  | assign_filters filters => set_filters filters w
  | assign_plugin_config plugin_config => set_plugin_config plugin_config w
  | assign_client client => set_client client w
  | assign_server server => set_server server w
  | assign_dark dark => set_dark dark w
  | assign_editable editable => set_editable editable w
  | assign_selectable row_selection => set_selectable row_selection w
  end.

(** Lumino attaches, detaches, shows and hides the widget: the two flags
    change and nothing else does. *)
Definition lumino_flags (attached visible : bool)
    (w : @PerspectiveWidget Table TableData) : @PerspectiveWidget Table TableData :=
  {| node := node w; isAttached := attached; isVisible := visible;
     title_label := title_label w; title_caption := title_caption w; id := id w;
     _viewer := _viewer w; viewer_calls := viewer_calls w;
     _plugin_config := _plugin_config w; _client := _client w;
     _server := _server w; _dark := _dark w; _editable := _editable w |}.

(** The states a widget goes through: it is constructed, then methods
    are called on it and Lumino changes its flags, in any order. *)
Inductive reachable (bound : bool) : @PerspectiveWidget Table TableData -> Prop :=
| reachable_new name options _increment :
    reachable bound (fst (constructor bound name options _increment))
| reachable_run m w :
    reachable bound w -> reachable bound (run m w)
| reachable_flags attached visible w :
    reachable bound w -> reachable bound (lumino_flags attached visible w).

(** *** Further notions used in the statements *)

(** What Lumino's [Widget] keeps besides the node. *)
Definition lumino_state (w : @PerspectiveWidget Table TableData)
  : bool * bool * string * string * string :=
  (isAttached w, isVisible w, title_label w, title_caption w, id w).

(** The attributes of the viewer element the widget writes. *)
Definition managed_attributes : list string :=
  ["plugin"; "columns"; "row-pivots"; "column-pivots"; "aggregates"; "sort";
   "expressions"; "filters"; "editable"; "selectable"].

(** The attributes a call may write. *)
Definition written_attributes (m : Method) : list string :=
  match m with
  | call_set_attributes _ => managed_attributes
  | assign_plugin _ => ["plugin"]
  | assign_columns _ => ["columns"]
  | assign_row_pivots _ => ["row-pivots"]
  | assign_column_pivots _ => ["column-pivots"]
  | assign_aggregates _ => ["aggregates"]
  | assign_sort _ => ["sort"]
  | assign_expressions _ => ["expressions"]
  | assign_filters _ => ["filters"]
  | assign_editable _ => ["editable"]
  | assign_selectable _ => ["selectable"]
  | _ => []
  end.

(** The calls that only pass something on to the viewer. *)
Definition forwards (m : Method) : bool :=
  match m with
  | call_onAfterShow _ | call_onResize _ | call_onActivateRequest _
  | call_notifyResize | call_toggleConfig | call_save | call_restore _
  | call_load _ | call_update _ | call_clear | call_replace _ | call_delete
  | call_getEditPort => true
  | _ => false
  end.

(** What the getters of [columns], [filters] and [expressions] give
    after an array was assigned: the array, or [null] for the empty
    one. *)
Definition array_or_null (l : list value) : value :=
  match l with
  | [] => JNull
  | _ :: _ => JArr l
  end.

(** The collections of an options object are JavaScript values of the
    model. *)
Definition options_wf (o : PerspectiveWidgetOptions) : bool :=
  JSON.wf (JArr (default [] (opt_columns o)))
  && JSON.wf (JArr (default [] (opt_row_pivots o)))
  && JSON.wf (JArr (default [] (opt_row_pivots_dashed o)))
  && JSON.wf (JArr (default [] (opt_column_pivots o)))
  && JSON.wf (JArr (default [] (opt_column_pivots_dashed o)))
  && JSON.wf (JObj (default [] (opt_aggregates o)))
  && JSON.wf (JArr (default [] (opt_sort o)))
  && JSON.wf (JArr (default [] (opt_filters o)))
  && JSON.wf (JArr (default [] (opt_expressions o))).

(** The calls on the viewer made since [w], in a later state [w']. *)
Definition calls_since (w w' : @PerspectiveWidget Table TableData)
  : list (@ViewerCall Table TableData) :=
  drop (length (viewer_calls w)) (viewer_calls w').

(** The cached [_dark] and [_editable] agree with the element: the node
    carries the dark container class exactly when [_dark] is true and
    the light one exactly when it is false, and the viewer carries the
    [editable] attribute exactly when [_editable] is true. *)
Definition cache_agrees (w : @PerspectiveWidget Table TableData) : Prop :=
  exists dark editable,
    _dark w = Some dark /\ _editable w = Some editable
    /\ (PSP_CONTAINER_CLASS_DARK ∈ classList (node w) <-> dark = true)
    /\ (PSP_CONTAINER_CLASS ∈ classList (node w) <-> dark = false)
    /\ hasAttribute "editable" (viewer w) = editable.

End Methods.

(* ===================================================================== *)
(** * Part II.  Lemmas                                                     *)
(* ===================================================================== *)

(** ** [JSON.parse] after [JSON.stringify] *)

Module JSONFacts.
Import JSON.

Ltac each_ascii c :=
  destruct c as [[|] [|] [|] [|] [|] [|] [|] [|]].

Lemma delimited_cases r :
  delimited r = true ->
  r = [] \/ exists c t, r = c :: t /\ (c = "," \/ c = "]" \/ c = "}")%char.
Proof.
  destruct r as [|c t]; [by left|]. simpl. intros Hd. right. exists c, t.
  split; [done|].
  apply orb_true_iff in Hd as [Hd|Hd]; [apply orb_true_iff in Hd as [Hd|Hd]|];
    apply Ascii.eqb_eq in Hd; auto.
Qed.

Lemma parse_digits_delimited r : delimited r = true -> parse_digits r = (Nil, r).
Proof.
  intros Hd. destruct (delimited_cases r Hd) as [->|(c & t & -> & [->|[->| ->]])];
    reflexivity.
Qed.

Lemma parse_digits_print_uint d r :
  parse_digits r = (Nil, r) -> parse_digits (print_uint d ++ r) = (d, r).
Proof.
  intros Hr. induction d; simpl; [done|..]; by rewrite IHd.
Qed.

Lemma canonical_to_uint n : canonical (N.to_uint n) = true.
Proof.
  unfold canonical. apply internal_uint_dec_lb.
  rewrite <- (DecimalN.Unsigned.of_to n) at 2.
  symmetry. apply DecimalN.Unsigned.to_of.
Qed.

Lemma print_uint_head d :
  d <> Nil -> exists c t, print_uint d = c :: t /\ is_digit c = true.
Proof. destruct d; [done|..]; intros _; simpl; eauto. Qed.

Lemma to_uint_nonnil n : N.to_uint n <> Nil.
Proof.
  destruct n; [discriminate|]. simpl. apply DecimalPos.Unsigned.to_uint_nonnil.
Qed.

Lemma print_N_head n : exists c t, print_N n = c :: t /\ is_digit c = true.
Proof. apply print_uint_head, to_uint_nonnil. Qed.

Lemma is_digit_not_minus c : is_digit c = true -> Ascii.eqb c "-" = false.
Proof. each_ascii c; vm_compute; congruence. Qed.

Lemma peek_minus_print_N n r : peek "-" (print_N n ++ r) = None.
Proof.
  destruct (print_N_head n) as (c & t & -> & Hc). simpl.
  by rewrite is_digit_not_minus.
Qed.

(** Digits as they are written *)

Lemma span_digits_delimited r : delimited r = true -> span_digits r = ([], r).
Proof.
  intros Hd. destruct (delimited_cases r Hd) as [->|(c & t & -> & [->|[->| ->]])];
    reflexivity.
Qed.

Lemma span_digits_app l r :
  Forall (fun c => is_digit c = true) l -> span_digits r = ([], r) ->
  span_digits (l ++ r) = (l, r).
Proof.
  intros Hl Hr. induction Hl as [|c l Hc _ IH]; [done|].
  simpl. by rewrite Hc, IH.
Qed.

Lemma digits_print_uint d : Forall (fun c => is_digit c = true) (print_uint d).
Proof. induction d; simpl; constructor; done. Qed.

Lemma digits_print_N n : Forall (fun c => is_digit c = true) (print_N n).
Proof. apply digits_print_uint. Qed.

Lemma digits_value_acc d acc :
  fold_left (fun a c => a * 10 + digit_value c)%N (print_uint d) (N.pos acc)
  = N.pos (Pos.of_uint_acc d acc).
Proof.
  revert acc. induction d; intros acc; simpl; [done|..];
    rewrite <- IHd; f_equal; unfold digit_value; simpl; lia.
Qed.

Lemma digits_value_print_uint d : digits_value (print_uint d) = N.of_uint d.
Proof.
  unfold digits_value, N.of_uint.
  induction d; simpl; [done|exact IHd|..]; apply digits_value_acc.
Qed.

Lemma digits_value_print_N n : digits_value (print_N n) = n.
Proof.
  unfold print_N. rewrite digits_value_print_uint.
  apply DecimalN.Unsigned.of_to.
Qed.

Lemma digits_zeros j : Forall (fun c => is_digit c = true) (repeat "0"%char j).
Proof. induction j; simpl; by constructor. Qed.

Lemma digits_value_zeros j ds :
  digits_value (repeat "0"%char j ++ ds) = digits_value ds.
Proof. induction j; [done|exact IHj]. Qed.

Lemma canonical_print_uint d :
  canonical d = true -> canonical_digits (print_uint d) = true.
Proof.
  unfold canonical. intros Hd. apply internal_uint_dec_bl in Hd.
  destruct d; simpl; try by destruct (print_uint d).
  - discriminate Hd.
  - unfold unorm in Hd. destruct (nzhead (D0 d)) eqn:Hn; try discriminate Hd.
    + by injection Hd as <-.
    + by apply DecimalFacts.nzhead_nonzero in Hn.
Qed.

Lemma canonical_print_N n : canonical_digits (print_N n) = true.
Proof. apply canonical_print_uint, canonical_to_uint. Qed.

(** The digits of a positive integer start with a digit that is not 0. *)
Lemma print_N_pos n :
  n <> 0%N ->
  exists c t, print_N n = c :: t /\ is_digit c = true /\ Ascii.eqb c "0" = false.
Proof.
  intros Hn. pose proof (canonical_print_N n) as Hc.
  pose proof (digits_value_print_N n) as Hv.
  pose proof (digits_print_N n) as Hd.
  destruct (print_N n) as [|c [|c' t]]; [done|..].
  - exists c, []. apply Forall_cons in Hd as [Hd _]. split; [done|]. split; [done|].
    destruct (Ascii.eqb_spec c "0") as [->|]; [|done].
    by subst n.
  - exists c, (c' :: t). apply Forall_cons in Hd as [Hd _].
    simpl in Hc. by destruct (Ascii.eqb c "0").
Qed.

(** Numbers *)

Lemma parse_fraction_none r c :
  Ascii.eqb c "." = false -> parse_fraction (c :: r) = Some ([], c :: r).
Proof. intros Hc. unfold parse_fraction. simpl. by rewrite Hc. Qed.

Lemma parse_fraction_delimited r :
  delimited r = true -> parse_fraction r = Some ([], r).
Proof.
  intros Hd. destruct (delimited_cases r Hd) as [->|(c & t & -> & [->|[->| ->]])];
    reflexivity.
Qed.

Lemma parse_fraction_digits fds r :
  fds <> [] -> Forall (fun c => is_digit c = true) fds ->
  span_digits r = ([], r) ->
  parse_fraction ("."%char :: fds ++ r) = Some (fds, r).
Proof.
  intros Hne Hl Hr. unfold parse_fraction. cbn [peek].
  change (Ascii.eqb "." ".") with true. cbv iota.
  rewrite span_digits_app by done. by destruct fds.
Qed.

Lemma parse_exponent_delimited r :
  delimited r = true -> parse_exponent r = Some (0, r).
Proof.
  intros Hd. destruct (delimited_cases r Hd) as [->|(c & t & -> & [->|[->| ->]])];
    reflexivity.
Qed.

Lemma parse_exponent_print x r :
  delimited r = true -> parse_exponent (print_exponent x ++ r) = Some (x, r).
Proof.
  intros Hd. unfold print_exponent, parse_exponent.
  destruct (print_N_head (Z.abs_N x)) as (c & t & Hp & Hc).
  pose proof (digits_print_N (Z.abs_N x)) as Hds.
  pose proof (digits_value_print_N (Z.abs_N x)) as Hv.
  rewrite <- !app_comm_cons.
  change (Ascii.eqb "e" "e" || Ascii.eqb "e" "E")%char with true. cbv iota.
  destruct (Z.ltb_spec x 0).
  - change (Ascii.eqb "-" "-") with true. cbv iota.
    rewrite span_digits_app by (done || by apply span_digits_delimited).
    rewrite Hp at 1. rewrite Hv. do 2 f_equal. lia.
  - change (Ascii.eqb "+" "-") with false. cbv iota.
    change (Ascii.eqb "+" "+") with true. cbv iota.
    rewrite span_digits_app by (done || by apply span_digits_delimited).
    rewrite Hp at 1. rewrite Hv. do 2 f_equal. lia.
Qed.

Lemma strip_zeros_none fuel M e :
  (M mod 10 <> 0)%N \/ 0 <= e -> strip_zeros fuel M e = (M, e).
Proof.
  intros H. destruct fuel; [done|]. simpl.
  destruct H as [H|H].
  - apply N.eqb_neq in H. rewrite H. by rewrite andb_false_r.
  - apply Z.ltb_ge in H. by rewrite H.
Qed.

Lemma number_of_integer neg ds :
  Z.of_N (digits_value ds) <= MAX_EXACT_INTEGER ->
  number_of neg ds 0 = Some (JNum (signed neg (digits_value ds))).
Proof.
  intros Hle. unfold number_of.
  destruct (N.eqb_spec (digits_value ds) 0) as [->|Hne]; [by destruct neg|].
  rewrite strip_zeros_none by (right; lia). simpl.
  apply Z.leb_le in Hle. rewrite Z.mul_1_r, Hle.
  by rewrite Z.mul_1_r.
Qed.

Lemma number_of_fraction neg ds (p : positive) :
  (digits_value ds mod 10 <> 0)%N ->
  (digits_value ds < 10 ^ MAX_DIGITS)%N -> Z.pos p <= MAX_PLACES ->
  number_of neg ds (- Z.pos p)
  = Some (JFrac (signed neg (digits_value ds)) p).
Proof.
  intros Hmod Hlt Hp. unfold number_of.
  destruct (N.eqb_spec (digits_value ds) 0) as [H0|Hne];
    [by rewrite H0 in Hmod|].
  rewrite strip_zeros_none by by left.
  change (0 <=? - Z.pos p) with false. cbv iota.
  apply N.ltb_lt in Hlt. rewrite Hlt.
  rewrite Z.opp_involutive. apply Z.leb_le in Hp. rewrite Hp. reflexivity.
Qed.

Lemma parse_unsigned_print_N neg n r :
  Z.of_N n <= MAX_EXACT_INTEGER -> delimited r = true ->
  parse_unsigned neg (print_N n ++ r) = Some (JNum (signed neg n), r).
Proof.
  intros Hn Hd. unfold parse_unsigned.
  rewrite span_digits_app by (apply digits_print_N || by apply span_digits_delimited).
  rewrite canonical_print_N, parse_fraction_delimited, parse_exponent_delimited
    by done.
  rewrite app_nil_r. simpl length. rewrite Z.sub_0_r.
  rewrite number_of_integer by by rewrite digits_value_print_N.
  by rewrite digits_value_print_N.
Qed.

Lemma parse_number_print_int z r :
  - MAX_EXACT_INTEGER <= z <= MAX_EXACT_INTEGER -> delimited r = true ->
  parse_number (print_int z ++ r) = Some (JNum z, r).
Proof.
  intros Hz Hd. unfold print_int, parse_number.
  destruct (Z.ltb_spec z 0) as [Hneg|Hpos].
  - simpl. rewrite parse_unsigned_print_N by (rewrite ?Z2N.id; (done || lia)).
    unfold signed. rewrite Z2N.id by lia. do 3 f_equal. lia.
  - rewrite peek_minus_print_N, parse_unsigned_print_N
      by (rewrite ?Z2N.id; (done || lia)).
    unfold signed. by rewrite Z2N.id by lia.
Qed.

Lemma span_digits_letter c r :
  is_digit c = false -> span_digits (c :: r) = ([], c :: r).
Proof. intros Hc. simpl. by rewrite Hc. Qed.

Lemma canonical_digits_head c t :
  Ascii.eqb c "0" = false -> canonical_digits (c :: t) = true.
Proof. intros Hc. simpl. rewrite Hc. by destruct t. Qed.

Lemma parse_unsigned_app neg ids tail fds r2 x r3 :
  Forall (fun c => is_digit c = true) ids -> canonical_digits ids = true ->
  span_digits tail = ([], tail) ->
  parse_fraction tail = Some (fds, r2) -> parse_exponent r2 = Some (x, r3) ->
  parse_unsigned neg (ids ++ tail)
  = match number_of neg (ids ++ fds) (x - Z.of_nat (length fds)) with
    | Some v => Some (v, r3)
    | None => None
    end.
Proof.
  intros Hids Hcan Htail Hf He. unfold parse_unsigned.
  by rewrite span_digits_app, Hcan, Hf, He.
Qed.

(** A number with a fraction is read back from each of the three forms
    [Number::toString] writes it in. *)
Lemma parse_unsigned_print_fraction neg c t (p : positive) r :
  let ds := c :: t in
  Forall (fun c => is_digit c = true) ds -> Ascii.eqb c "0" = false ->
  (digits_value ds mod 10 <> 0)%N ->
  (digits_value ds < 10 ^ MAX_DIGITS)%N -> Z.pos p <= MAX_PLACES ->
  delimited r = true ->
  parse_unsigned neg (print_fraction ds (Z.of_nat (length ds) - Z.pos p) ++ r)
  = Some (JFrac (signed neg (digits_value ds)) p, r).
Proof.
  intros ds Hds Hc Hmod Hlt Hp Hd.
  pose proof (span_digits_delimited r Hd) as Hr.
  assert (Hdc : is_digit c = true) by by apply Forall_cons in Hds as [? _].
  assert (Hdt : Forall (fun c => is_digit c = true) t)
    by by apply Forall_cons in Hds as [_ ?].
  assert (Hlen : length ds = S (length t)) by reflexivity.
  unfold print_fraction.
  set (n := Z.of_nat (length ds) - Z.pos p).
  destruct ((0 <? n) && (n <=? 21)) eqn:Hform1.
  - (* digits, point, digits *)
    apply andb_true_iff in Hform1 as [Hpos%Z.ltb_lt _].
    rewrite <- app_assoc, <- app_comm_cons.
    rewrite (parse_unsigned_app neg _ _ (drop (Z.to_nat n) ds) r 0 r).
    + rewrite take_drop.
      replace (0 - Z.of_nat (length (drop (Z.to_nat n) ds))) with (- Z.pos p)
        by (rewrite length_drop; lia).
      by rewrite number_of_fraction.
    + by apply Forall_take.
    + replace (Z.to_nat n) with (S (Z.to_nat n - 1)) by lia.
      subst ds. cbn [take]. by apply canonical_digits_head.
    + reflexivity.
    + apply parse_fraction_digits; [|by apply Forall_drop|done].
      intros Hnil%(f_equal length). rewrite length_drop in Hnil.
      simpl in Hnil. lia.
    + by apply parse_exponent_delimited.
  - destruct ((-6 <? n) && (n <=? 0)) eqn:Hform2.
    + (* 0, point, zeros, digits *)
      apply andb_true_iff in Hform2 as [_ Hle%Z.leb_le].
      set (zs := repeat "0"%char (Z.to_nat (- n))).
      change (("0"%char :: "."%char :: zs ++ ds) ++ r)
        with (["0"%char] ++ "."%char :: (zs ++ ds) ++ r).
      rewrite (parse_unsigned_app neg _ _ (zs ++ ds) r 0 r).
      * replace (0 - Z.of_nat (length (zs ++ ds))) with (- Z.pos p)
          by (subst zs; rewrite length_app, repeat_length; lia).
        assert (Hv : digits_value (["0"%char] ++ zs ++ ds) = digits_value ds)
          by exact (digits_value_zeros (S (Z.to_nat (- n))) ds).
        rewrite <- Hv in Hmod, Hlt |- *. by rewrite number_of_fraction.
      * by repeat constructor.
      * reflexivity.
      * reflexivity.
      * apply parse_fraction_digits; [by destruct zs| |done].
        apply Forall_app. split; [apply digits_zeros|done].
      * by apply parse_exponent_delimited.
    + (* digit, point, digits, exponent *)
      subst ds. destruct t as [|c2 t2].
      * change ((c :: print_exponent (n - 1)) ++ r)
          with ([c] ++ print_exponent (n - 1) ++ r).
        rewrite (parse_unsigned_app neg _ _ [] (print_exponent (n - 1) ++ r)
                   (n - 1) r).
        -- replace (n - 1 - Z.of_nat (length (@nil ascii))) with (- Z.pos p)
             by (simpl length in *; lia).
           rewrite app_nil_r. by rewrite number_of_fraction.
        -- done.
        -- reflexivity.
        -- reflexivity.
        -- reflexivity.
        -- by apply parse_exponent_print.
      * change ((c :: "."%char :: (c2 :: t2) ++ print_exponent (n - 1)) ++ r)
          with ([c] ++ "."%char :: ((c2 :: t2) ++ print_exponent (n - 1)) ++ r).
        rewrite <- app_assoc.
        rewrite (parse_unsigned_app neg _ _ (c2 :: t2)
                   (print_exponent (n - 1) ++ r) (n - 1) r).
        -- replace (n - 1 - Z.of_nat (length (c2 :: t2))) with (- Z.pos p)
             by (simpl length in *; lia).
           change ([c] ++ c2 :: t2) with (c :: c2 :: t2).
           by rewrite number_of_fraction.
        -- by repeat constructor.
        -- reflexivity.
        -- reflexivity.
        -- by apply parse_fraction_digits.
        -- by apply parse_exponent_print.
Qed.

Lemma print_fraction_head c t n :
  is_digit c = true ->
  exists c' t', print_fraction (c :: t) n = c' :: t' /\ is_digit c' = true.
Proof.
  intros Hc. unfold print_fraction.
  destruct ((0 <? n) && (n <=? 21)) eqn:Hform1.
  - apply andb_true_iff in Hform1 as [Hpos%Z.ltb_lt _].
    destruct (Z.to_nat n) as [|j] eqn:Hj; [lia|]. simpl. eauto.
  - destruct ((-6 <? n) && (n <=? 0)); [by eauto|].
    destruct t; eauto.
Qed.

Lemma parse_number_print_frac m p r :
  wf (JFrac m p) = true -> delimited r = true ->
  parse_number (print_frac m p ++ r) = Some (JFrac m p, r).
Proof.
  intros Hwf Hd. simpl in Hwf.
  apply andb_true_iff in Hwf as [Hwf Hp%Z.leb_le].
  apply andb_true_iff in Hwf as [Hmod%negb_true_iff%N.eqb_neq Hlt%N.ltb_lt].
  assert (Hne : Z.abs_N m <> 0%N) by by intros H0; rewrite H0 in Hmod.
  destruct (print_N_pos _ Hne) as (c & t & Hds & Hc & Hc0).
  pose proof (digits_print_N (Z.abs_N m)) as Hall.
  pose proof (digits_value_print_N (Z.abs_N m)) as Hv.
  unfold print_frac, parse_number. rewrite Hds in *.
  pose proof (parse_unsigned_print_fraction (m <? 0) c t p r Hall Hc0) as Hparse.
  cbv zeta in Hparse. rewrite Hv in Hparse.
  specialize (Hparse Hmod Hlt Hp Hd).
  assert (Hs : signed (m <? 0) (Z.abs_N m) = m).
  { unfold signed. destruct (Z.ltb_spec m 0); lia. }
  rewrite Hs in Hparse.
  destruct (print_fraction_head c t (Z.of_nat (length (c :: t)) - Z.pos p) Hc)
    as (c' & t' & Hp' & Hc').
  destruct (m <? 0).
  - rewrite <- app_comm_cons. cbn [peek].
    change (Ascii.eqb "-" "-") with true. cbv iota. exact Hparse.
  - rewrite Hp' in *. rewrite <- app_comm_cons in *. cbn [peek].
    by rewrite is_digit_not_minus.
Qed.

Lemma parse_string_escape_char c rest :
  parse_string (escape_char c ++ rest) =
  match parse_string rest with
  | Some (s, r) => Some (String c s, r)
  | None => None
  end.
Proof. each_ascii c; reflexivity. Qed.

Lemma parse_string_escape s r :
  parse_string (escape s ++ dquote :: r) = Some (s, r).
Proof.
  induction s as [|c s IH]; [reflexivity|].
  simpl. rewrite <- app_assoc, parse_string_escape_char. by rewrite IH.
Qed.


(** Objects *)

Lemma key_before_irrefl k : key_before k k = false.
Proof.
  unfold key_before. destruct (index_of k).
  - apply N.ltb_irrefl.
  - by rewrite String.eqb_refl.
Qed.

Lemma keys_ordered_snoc ks k :
  keys_ordered (ks ++ [k]) = true ->
  keys_ordered ks = true /\ Forall (fun k' => key_before k' k = true) ks.
Proof.
  induction ks as [|k0 ks IH]; simpl; [by auto|].
  rewrite !andb_true_iff, forallb_app. simpl. rewrite !andb_true_iff.
  intros [[Hall [Hk _]] Hord]. destruct (IH Hord) as [? ?]. auto.
Qed.

Lemma keys_ordered_app_l ks ks' :
  keys_ordered (ks ++ ks') = true -> keys_ordered ks = true.
Proof.
  induction ks as [|k ks IH]; simpl; [done|].
  rewrite !andb_true_iff, forallb_app, andb_true_iff. intros [[? ?] ?]. auto.
Qed.

Lemma obj_replace_fresh k v o :
  Forall (fun k' => key_before k' k = true) (map fst o) -> obj_replace k v o = None.
Proof.
  induction o as [|[k' v'] o IH]; simpl; [done|].
  intros HF. apply Forall_cons in HF as [Hk HF].
  destruct (String.eqb_spec k k') as [->|_].
  - by rewrite key_before_irrefl in Hk.
  - by rewrite IH.
Qed.

Lemma obj_insert_index_last n k v o :
  index_of k = Some n ->
  Forall (fun k' => key_before k' k = true) (map fst o) ->
  obj_insert_index n k v o = o ++ [(k, v)].
Proof.
  intros Hk. induction o as [|[k' v'] o IH]; simpl; [done|].
  intros HF. apply Forall_cons in HF as [Hk' HF].
  unfold key_before in Hk'. rewrite Hk in Hk'.
  destruct (index_of k'); [|done]. rewrite Hk'. by rewrite IH.
Qed.

Lemma obj_define_last k v o :
  keys_ordered (map fst (o ++ [(k, v)])) = true ->
  obj_define k v o = o ++ [(k, v)].
Proof.
  rewrite map_app. simpl. intros [_ HF]%keys_ordered_snoc.
  unfold obj_define. rewrite obj_replace_fresh by done.
  destruct (index_of k) eqn:Hk; [|done]. by apply obj_insert_index_last.
Qed.

(** The first character of a printed value *)

Lemma starts_value_spec c :
  starts_value c = true ->
  is_ws c = false /\ Ascii.eqb c "]" = false /\ Ascii.eqb c "}" = false.
Proof. each_ascii c; vm_compute; intuition congruence. Qed.

Lemma print_frac_head m p :
  exists c t, print_frac m p = c :: t /\ starts_number c = true.
Proof.
  unfold print_frac. destruct (m <? 0); [by eauto|].
  destruct (print_N_head (Z.abs_N m)) as (c & t & -> & Hc).
  destruct (print_fraction_head c t (Z.of_nat (length (c :: t)) - Z.pos p) Hc)
    as (c' & t' & -> & Hc').
  exists c', t'. split; [done|]. unfold starts_number. by rewrite Hc'.
Qed.

Lemma print_head v : exists c t, print v = c :: t /\ starts_value c = true.
Proof.
  destruct v as [|[|]|z|m p|x|s|l|o]; simpl; eauto.
  - unfold print_int. destruct (z <? 0); [by eauto|].
    destruct (print_N_head (Z.to_N z)) as (c & t & -> & Hc).
    exists c, t. split; [done|]. unfold starts_value, starts_number.
    by rewrite Hc.
  - destruct (print_frac_head m p) as (c & t & -> & Hc).
    exists c, t. split; [done|]. unfold starts_value. by rewrite Hc.
Qed.

Lemma skip_ws_print v r : skip_ws (print v ++ r) = print v ++ r.
Proof.
  destruct (print_head v) as (c & t & -> & Hc).
  apply starts_value_spec in Hc as (Hws & _). simpl. by rewrite Hws.
Qed.

Lemma peek_bracket_print v r : peek "]" (print v ++ r) = None.
Proof.
  destruct (print_head v) as (c & t & -> & Hc).
  apply starts_value_spec in Hc as (_ & Hb & _). simpl. by rewrite Hb.
Qed.

Lemma print_length v : (1 <= length (print v))%nat.
Proof. destruct (print_head v) as (c & t & -> & _). simpl. lia. Qed.

(** Unfolding the parser by one call *)

Lemma parse_value_S fuel inp :
  parse_value (S fuel) inp =
  match skip_ws inp with
  | [] => None
  | c :: r =>
      if starts_number c then
        parse_number (c :: r)
      else if Ascii.eqb c dquote then
        match parse_string r with
        | Some (s, r') => Some (JStr s, r')
        | None => None
        end
      else if Ascii.eqb c "["%char then
        match peek "]" (skip_ws r) with
        | Some r' => Some (JArr [], r')
        | None =>
            match parse_elements fuel (skip_ws r) with
            | Some (l, r') => Some (JArr l, r')
            | None => None
            end
        end
      else if Ascii.eqb c "{"%char then
        match peek "}" (skip_ws r) with
        | Some r' => Some (JObj [], r')
        | None =>
            match parse_members fuel (skip_ws r) [] with
            | Some (o, r') => Some (JObj o, r')
            | None => None
            end
        end
      else if Ascii.eqb c "n"%char then literal ["u"; "l"; "l"]%char JNull r
      else if Ascii.eqb c "t"%char then literal ["r"; "u"; "e"]%char (JBool true) r
      else if Ascii.eqb c "f"%char then literal ["a"; "l"; "s"; "e"]%char (JBool false) r
      else None
  end.
Proof. reflexivity. Qed.

Lemma parse_elements_S fuel inp :
  parse_elements (S fuel) inp =
  match parse_value fuel inp with
  | Some (v, r) =>
      match skip_ws r with
      | c :: r' =>
          if Ascii.eqb c ","%char then
            match parse_elements fuel r' with
            | Some (l, r'') => Some (v :: l, r'')
            | None => None
            end
          else if Ascii.eqb c "]"%char then Some ([v], r')
          else None
      | [] => None
      end
  | None => None
  end.
Proof. reflexivity. Qed.

Lemma parse_members_S fuel inp acc :
  parse_members (S fuel) inp acc =
  match skip_ws inp with
  | c :: r =>
      if Ascii.eqb c dquote then
        match parse_string r with
        | Some (k, r1) =>
            match skip_ws r1 with
            | c1 :: r2 =>
                if Ascii.eqb c1 ":"%char then
                  match parse_value fuel r2 with
                  | Some (v, r3) =>
                      let acc' := obj_define k v acc in
                      match skip_ws r3 with
                      | c3 :: r4 =>
                          if Ascii.eqb c3 ","%char then parse_members fuel r4 acc'
                          else if Ascii.eqb c3 "}"%char then Some (acc', r4)
                          else None
                      | [] => None
                      end
                  | None => None
                  end
                else None
            | [] => None
            end
        | None => None
        end
      else None
  | [] => None
  end.
Proof. reflexivity. Qed.

(** The round trip of one value, inside a larger text *)
Lemma parse_elements_print l :
  l <> [] -> Forall reads_back l ->
  forall fuel r,
    (length (join_comma (map print l)) < fuel)%nat ->
    parse_elements fuel (join_comma (map print l) ++ "]"%char :: r) = Some (l, r).
Proof.
  induction l as [|x l IH]; [done|]. intros _ HF fuel r Hlen.
  apply Forall_cons in HF as [Hx HF].
  destruct fuel as [|fuel]; [lia|]. rewrite parse_elements_S.
  destruct l as [|y l].
  - simpl in *. rewrite Hx by (done || (clear -Hlen; lia)). reflexivity.
  - change (join_comma (map print (x :: y :: l)))
      with (print x ++ ","%char :: join_comma (map print (y :: l))) in *.
    rewrite length_app, length_cons in Hlen.
    rewrite <- app_assoc. rewrite Hx by (done || (clear -Hlen; lia)).
    rewrite <- app_comm_cons.
    change (skip_ws (","%char :: ?t)) with (","%char :: t).
    cbv beta iota. change (Ascii.eqb "," ",") with true. cbv iota.
    rewrite IH by (done || (clear -Hlen; lia)). reflexivity.
Qed.


Lemma print_member_app k v rest :
  print_member (k, v) ++ rest =
  dquote :: escape k ++ dquote :: ":"%char :: print v ++ rest.
Proof.
  unfold print_member, quote. simpl. by rewrite <- !app_assoc.
Qed.

Lemma print_member_length k v :
  (length (print v) < length (print_member (k, v)))%nat.
Proof.
  unfold print_member. rewrite length_app, length_cons. simpl. lia.
Qed.

Lemma parse_members_print o :
  o <> [] -> Forall (fun kv => reads_back (snd kv)) o ->
  forall acc fuel r,
    keys_ordered (map fst (acc ++ o)) = true ->
    (length (join_comma (map print_member o)) < fuel)%nat ->
    parse_members fuel (join_comma (map print_member o) ++ "}"%char :: r) acc
    = Some (acc ++ o, r).
Proof.
  induction o as [|[k v] o IH]; [done|]. intros _ HF acc fuel r Hord Hlen.
  apply Forall_cons in HF as [Hv HF]. simpl in Hv.
  destruct fuel as [|fuel]; [lia|]. rewrite parse_members_S.
  assert (Hdef : obj_define k v acc = acc ++ [(k, v)]).
  { apply obj_define_last. rewrite cons_middle, app_assoc, map_app in Hord.
    by apply keys_ordered_app_l in Hord. }
  pose proof (print_member_length k v) as Hkv.
  destruct o as [|kv' o].
  - change (join_comma (map print_member [(k, v)])) with (print_member (k, v)) in *.
    rewrite print_member_app.
    change (skip_ws (dquote :: ?t)) with (dquote :: t). cbv beta iota.
    change (Ascii.eqb dquote dquote) with true. cbv iota.
    rewrite parse_string_escape.
    change (skip_ws (":"%char :: ?t)) with (":"%char :: t). cbv beta iota.
    change (Ascii.eqb ":" ":") with true. cbv iota.
    rewrite Hv by (done || (clear -Hlen Hkv; lia)).
    cbv zeta. rewrite Hdef. reflexivity.
  - change (join_comma (map print_member ((k, v) :: kv' :: o)))
      with (print_member (k, v) ++ ","%char :: join_comma (map print_member (kv' :: o))) in *.
    rewrite length_app, length_cons in Hlen.
    rewrite <- app_assoc, print_member_app.
    change (skip_ws (dquote :: ?t)) with (dquote :: t). cbv beta iota.
    change (Ascii.eqb dquote dquote) with true. cbv iota.
    rewrite parse_string_escape.
    change (skip_ws (":"%char :: ?t)) with (":"%char :: t). cbv beta iota.
    change (Ascii.eqb ":" ":") with true. cbv iota.
    rewrite <- app_comm_cons.
    rewrite Hv by (done || (clear -Hlen Hkv; lia)).
    cbv zeta. rewrite Hdef.
    change (skip_ws (","%char :: ?t)) with (","%char :: t). cbv beta iota.
    change (Ascii.eqb "," ",") with true. cbv iota.
    rewrite IH; [by rewrite <- app_assoc|done|done| |clear -Hlen; lia].
    by rewrite <- app_assoc.
Qed.

Lemma wf_elements l :
  Forall (fun v => wf v = true -> reads_back v) l ->
  forallb wf l = true -> Forall reads_back l.
Proof.
  induction 1 as [|x l Hx _ IH]; simpl; [done|].
  intros [? ?]%andb_true_iff. constructor; auto.
Qed.

Lemma wf_members (o : object) :
  Forall (fun kv => wf (snd kv) = true -> reads_back (snd kv)) o ->
  forallb (fun kv => wf (snd kv)) o = true ->
  Forall (fun kv => reads_back (snd kv)) o.
Proof.
  induction 1 as [|x l Hx _ IH]; simpl; [done|].
  intros [? ?]%andb_true_iff. constructor; auto.
Qed.

Lemma print_reads_back v : wf v = true -> reads_back v.
Proof.
  induction v as [|b|z|m p|x|s|l IH|o IH] using value_ind; intros Hwf fuel r Hlen Hd;
    (destruct fuel as [|fuel];
     [match type of Hlen with (length (print ?v) <= _)%nat =>
        pose proof (print_length v); lia end|]);
    rewrite parse_value_S, skip_ws_print.
  - reflexivity.
  - by destruct b.
  - simpl in Hwf. apply andb_true_iff in Hwf as [Hlo Hhi].
    apply Z.leb_le in Hlo, Hhi.
    destruct (print_head (JNum z)) as (c & t & Hp & Hc).
    assert (Hnum : starts_number c = true).
    { simpl in Hp. unfold print_int in Hp. destruct (z <? 0).
      - by injection Hp as <- _.
      - destruct (print_N_head (Z.to_N z)) as (c' & t' & Hp' & Hc').
        rewrite Hp' in Hp. injection Hp as <- _.
        unfold starts_number. by rewrite Hc'. }
    rewrite Hp. rewrite <- app_comm_cons. rewrite Hnum.
    rewrite app_comm_cons, <- Hp. simpl print.
    by rewrite parse_number_print_int.
  - destruct (print_frac_head m p) as (c & t & Hp & Hc).
    simpl print. rewrite Hp, <- app_comm_cons, Hc.
    rewrite app_comm_cons, <- Hp.
    by apply parse_number_print_frac.
  - discriminate Hwf.
  - simpl. rewrite <- app_assoc. simpl. by rewrite parse_string_escape.
  - simpl in Hwf. apply wf_elements in IH; [|done].
    destruct l as [|x l]; [reflexivity|].
    set (body := join_comma (map print (x :: l))) in *.
    change (print (JArr (x :: l))) with ("["%char :: body ++ ["]"%char]) in *.
    rewrite length_cons, length_app in Hlen. simpl in Hlen.
    rewrite <- app_comm_cons, <- app_assoc. simpl app.
    change (starts_number "[") with false. cbv iota.
    change (Ascii.eqb "[" dquote) with false. cbv iota.
    change (Ascii.eqb "[" "[") with true. cbv iota.
    assert (Hbody : exists c t, body = c :: t /\ starts_value c = true).
    { subst body. destruct (print_head x) as (c & t & Hp & Hc).
      destruct l; simpl; rewrite Hp; eauto. }
    destruct Hbody as (c & t & Hb & Hc).
    apply starts_value_spec in Hc as (Hws & Hcl & _).
    assert (Hskip : skip_ws (body ++ "]"%char :: r) = body ++ "]"%char :: r).
    { rewrite Hb. simpl. by rewrite Hws. }
    rewrite Hskip.
    assert (Hpeek : peek "]" (body ++ "]"%char :: r) = None).
    { rewrite Hb. simpl. by rewrite Hcl. }
    rewrite Hpeek. subst body.
    rewrite parse_elements_print; [done|done|done|clear -Hlen; lia].
  - simpl in Hwf. apply andb_true_iff in Hwf as [Hord Hwf].
    apply wf_members in IH; [|done].
    destruct o as [|[k v] o]; [reflexivity|].
    set (body := join_comma (map print_member ((k, v) :: o))) in *.
    change (print (JObj ((k, v) :: o))) with ("{"%char :: body ++ ["}"%char]) in *.
    rewrite length_cons, length_app in Hlen. simpl in Hlen.
    rewrite <- app_comm_cons, <- app_assoc. simpl app.
    change (starts_number "{") with false. cbv iota.
    change (Ascii.eqb "{" dquote) with false. cbv iota.
    change (Ascii.eqb "{" "[") with false. cbv iota.
    change (Ascii.eqb "{" "{") with true. cbv iota.
    assert (Hb : exists t, body = dquote :: t).
    { subst body. destruct o; simpl; eauto. }
    destruct Hb as (t & Hb).
    assert (Hskip : skip_ws (body ++ "}"%char :: r) = body ++ "}"%char :: r).
    { by rewrite Hb. }
    rewrite Hskip.
    assert (Hpeek : peek "}" (body ++ "}"%char :: r) = None).
    { by rewrite Hb. }
    rewrite Hpeek. subst body.
    rewrite (parse_members_print ((k, v) :: o) ltac:(done) IH []);
      [done|done|clear -Hlen; lia].
Qed.

(** [JSON.parse(JSON.stringify(v))] is [v]. *)
Lemma parse_stringify v : wf v = true -> parse (stringify v) = Some v.
Proof.
  intros Hwf. unfold parse, stringify.
  rewrite list_ascii_of_string_of_list_ascii.
  pose proof (print_reads_back v Hwf (S (length (print v))) []) as Hp.
  rewrite app_nil_r in Hp. rewrite Hp by (done || lia). reflexivity.
Qed.

End JSONFacts.

(** Some texts and what they read as. *)

Example stringify_compact :
  JSON.stringify (JArr [JNum 1; JNum (-20); JBool true; JNull; JArr []; JObj []])
  = "[1,-20,true,null,[],{}]".
Proof. reflexivity. Qed.

Example parse_spaced :
  JSON.parse " [ 1 , [ ] , { } , false ] "
  = Some (JArr [JNum 1; JArr []; JObj []; JBool false]).
Proof. reflexivity. Qed.

Example parse_null : JSON.parse "null" = Some JNull.
Proof. reflexivity. Qed.

Example parse_numbers :
  JSON.parse "[1.5,-2e3,1.50,1E-7,0.000001,9007199254740992]"
  = Some (JArr [JFrac 15 1; JNum (-2000); JFrac 15 1; JFrac 1 7; JFrac 1 6;
                JNum (2 ^ 53)]).
Proof. reflexivity. Qed.

Example stringify_numbers :
  JSON.stringify (JArr [JFrac 15 1; JFrac 1 6; JFrac 1 7; JFrac (-12345) 11;
                        JFrac 12345 2; JNonFinite NaN; JNonFinite Infinity])
  = "[1.5,0.000001,1e-7,-1.2345e-7,123.45,null,null]".
Proof. reflexivity. Qed.

(** Escapes of code points beyond ASCII, one of them as a surrogate
    pair. *)
Example parse_escapes :
  JSON.parse (string_of_list_ascii
                (dquote :: list_ascii_of_string "\u00e9\u20ac\ud83d\ude00"
                 ++ [dquote]))
  = Some (JStr "é€😀").
Proof. reflexivity. Qed.

Example parse_rejects :
  JSON.parse "01" = None /\ JSON.parse "[1,]" = None /\ JSON.parse "nul" = None
  /\ JSON.parse "- 1" = None /\ JSON.parse EmptyString = None.
Proof. repeat split. Qed.

(** An array index is enumerated before the other keys, so a list that
    has it later is not a JavaScript object and reads back reordered. *)
Example parse_orders_indices :
  JSON.wf (JObj [("b", JNum 1); ("1", JNum 2)]) = false
  /\ JSON.parse (JSON.stringify (JObj [("b", JNum 1); ("1", JNum 2)]))
     = Some (JObj [("1", JNum 2); ("b", JNum 1)])
  /\ JSON.wf (JObj [("1", JNum 2); ("b", JNum 1)]) = true.
Proof. repeat split. Qed.

(** ** The widget *)

Section WidgetFacts.

Context {Table TableData : Type}.
Context `{Utils}.

Abbreviation Widget := (@PerspectiveWidget Table TableData).

(** *** Lifecycle forwarding *)

(** C4.  A resize message and an after-show message each make the widget
    call the viewer's [notifyResize] exactly when the widget is visible:
    the calls on the viewer grow by that one call when [isVisible]
    holds, and stay as they are when it does not. *)
Theorem resize_forwarded_when_visible (rmsg : ResizeMessage) (msg : Message) (w : Widget) :
  viewer_calls (onResize rmsg w)
    = viewer_calls w ++ (if isVisible w then [viewer_notifyResize] else [])
  /\ viewer_calls (onAfterShow msg w)
    = viewer_calls w ++ (if isVisible w then [viewer_notifyResize] else []).
Proof.
  unfold onResize, onAfterShow, notifyResize.
  destruct (isVisible w); simpl; by rewrite ?app_nil_r.
Qed.

(** C5.  An activation request makes the widget call the viewer's
    [focus] if and only if the widget is attached: the calls on the
    viewer grow by [focus] when [isAttached] holds and stay as they are
    when the widget is detached. *)
Theorem focus_forwarded_iff_attached (msg : Message) (w : Widget) :
  viewer_calls (onActivateRequest msg w)
    = viewer_calls w ++ (if isAttached w then [viewer_focus] else []).
Proof.
  unfold onActivateRequest. destruct (isAttached w); simpl; by rewrite ?app_nil_r.
Qed.

(** *** Data operations *)

Lemma call_frame (c : ViewerCall) (w : Widget) :
  viewer_calls (call c w) = viewer_calls w ++ [c]
  /\ same_fields_and_attributes w (call c w).
Proof. by repeat split. Qed.

(** C6.  [load], [_update], [clear], [replace] and [delete] each make one
    call on the viewer (or on its table), with the argument as it was
    given, and leave the private fields and the attributes of the
    viewer element as they were. *)
Theorem data_operations_forward (table : Table) (data : TableData) (w : Widget) :
  (viewer_calls (load table w) = viewer_calls w ++ [viewer_load table]
   /\ same_fields_and_attributes w (load table w))
  /\ (viewer_calls (_update data w) = viewer_calls w ++ [viewer_table_update data]
      /\ same_fields_and_attributes w (_update data w))
  /\ (viewer_calls (clear w) = viewer_calls w ++ [viewer_table_clear]
      /\ same_fields_and_attributes w (clear w))
  /\ (viewer_calls (replace data w) = viewer_calls w ++ [viewer_table_replace data]
      /\ same_fields_and_attributes w (replace data w))
  /\ (viewer_calls (delete w) = viewer_calls w ++ [viewer_delete]
      /\ same_fields_and_attributes w (delete w)).
Proof. repeat split. Qed.

(** *** Cached fields *)

(** C7.  [client], [server] and [plugin_config] read back the value last
    assigned; assigning [client] or [server] changes the one private
    field and nothing else: no attribute, no call on the viewer. *)
Theorem cached_fields (client server : bool) (plugin_config : option object) (w : Widget) :
  get_client (set_client client w) = Some client
  /\ same_but_client w (set_client client w)
  /\ get_server (set_server server w) = Some server
  /\ same_but_server w (set_server server w)
  /\ get_plugin_config (set_plugin_config plugin_config w) = plugin_config.
Proof.
  repeat split. unfold set_plugin_config. simpl. by destruct plugin_config.
Qed.

(** *** Attributes *)

Lemma getAttribute_setAttribute name val (e : Element) :
  getAttribute name (setAttribute name val e) = Some val.
Proof. apply lookup_insert_eq. Qed.

Lemma getAttribute_removeAttribute name (e : Element) :
  getAttribute name (removeAttribute name e) = None.
Proof. apply lookup_delete_eq. Qed.

Lemma getAttribute_setAttribute_ne name name' val (e : Element) :
  name <> name' -> getAttribute name' (setAttribute name val e) = getAttribute name' e.
Proof. intros. by apply lookup_insert_ne. Qed.

Lemma getAttribute_removeAttribute_ne name name' (e : Element) :
  name <> name' -> getAttribute name' (removeAttribute name e) = getAttribute name' e.
Proof. intros. by apply lookup_delete_ne. Qed.

(** C2, as the code has it.  Assigning an empty collection to [columns],
    [filters] or [expressions] removes the attribute; assigning one to
    [row_pivots], [column_pivots], [sort] or [aggregates] sets the
    attribute to the JSON text of the empty collection. *)
Theorem empty_collection_attribute (w : Widget) :
  getAttribute "columns" (viewer (set_columns [] w)) = None
  /\ getAttribute "filters" (viewer (set_filters [] w)) = None
  /\ getAttribute "expressions" (viewer (set_expressions [] w)) = None
  /\ getAttribute "row-pivots" (viewer (set_row_pivots [] w)) = Some "[]"
  /\ getAttribute "column-pivots" (viewer (set_column_pivots [] w)) = Some "[]"
  /\ getAttribute "sort" (viewer (set_sort [] w)) = Some "[]"
  /\ getAttribute "aggregates" (viewer (set_aggregates [] w)) = Some "{}".
Proof.
  repeat split; first [apply getAttribute_removeAttribute | apply getAttribute_setAttribute].
Qed.

(** C10.  After an empty array is assigned to [columns], [filters] or
    [expressions], reading the property back gives [null]: the setter
    removed the attribute and [JSON.parse] of the absent attribute is
    [null]. *)
Theorem empty_collection_reads_null (w : Widget) :
  get_columns (set_columns [] w) = Some JNull
  /\ get_filters (set_filters [] w) = Some JNull
  /\ get_expressions (set_expressions [] w) = Some JNull.
Proof.
  unfold get_columns, get_filters, get_expressions.
  repeat split; simpl; by rewrite getAttribute_removeAttribute.
Qed.

(** *** Dark mode *)

Lemma classList_add_remove (c c' : string) (e : Element) :
  c <> c' ->
  c ∈ classList (classList_remove c' (classList_add c e))
  /\ c' ∉ classList (classList_remove c' (classList_add c e)).
Proof.
  intros Hne. unfold classList_remove, classList_add. simpl.
  rewrite !list_elem_of_filter. split; [|by intros [? _]].
  split; [done|]. case_bool_decide; [done|].
  apply elem_of_app. right. by apply list_elem_of_singleton.
Qed.

(** C9.  After any assignment to [dark] the node carries exactly one of
    the two container classes: the dark one when [dark] is true, the
    light one when it is false.  The two class names come from
    [./utils] and are taken to be distinct. *)
Theorem dark_classes_exclusive (dark : bool) (w : Widget) :
  PSP_CONTAINER_CLASS <> PSP_CONTAINER_CLASS_DARK ->
  if dark then
    PSP_CONTAINER_CLASS_DARK ∈ classList (node (set_dark dark w))
    /\ PSP_CONTAINER_CLASS ∉ classList (node (set_dark dark w))
  else
    PSP_CONTAINER_CLASS ∈ classList (node (set_dark dark w))
    /\ PSP_CONTAINER_CLASS_DARK ∉ classList (node (set_dark dark w)).
Proof.
  intros Hne. unfold set_dark.
  destruct dark; simpl; destruct (isAttached w); simpl;
    apply classList_add_remove; congruence.
Qed.


(** *** Marshalling *)


(** *** Defaults *)

(** What each setter does to the viewer element. *)

Lemma viewer_set_server b (w : Widget) : viewer (set_server b w) = viewer w.
Proof. reflexivity. Qed.

Lemma viewer_set_client b (w : Widget) : viewer (set_client b w) = viewer w.
Proof. reflexivity. Qed.

Lemma viewer_set_dark b (w : Widget) : viewer (set_dark b w) = viewer w.
Proof. unfold set_dark. by destruct b, (isAttached w). Qed.

Lemma viewer_set_plugin_config c (w : Widget) :
  viewer (set_plugin_config c w) = viewer w.
Proof. by destruct c. Qed.

Lemma viewer_set_editable b (w : Widget) :
  viewer (set_editable b w)
  = if b then setAttribute "editable" EmptyString (viewer w)
    else removeAttribute "editable" (viewer w).
Proof. by destruct b. Qed.

Lemma viewer_set_selectable b (w : Widget) :
  viewer (set_selectable b w)
  = if b then setAttribute "selectable" EmptyString (viewer w)
    else removeAttribute "selectable" (viewer w).
Proof. by destruct b. Qed.

Lemma viewer_set_plugin p (w : Widget) :
  viewer (set_plugin p w) = setAttribute "plugin" p (viewer w).
Proof. reflexivity. Qed.

Lemma viewer_set_row_pivots v (w : Widget) :
  viewer (set_row_pivots v w)
  = setAttribute "row-pivots" (JSON.stringify (JArr v)) (viewer w).
Proof. reflexivity. Qed.

Lemma viewer_set_column_pivots v (w : Widget) :
  viewer (set_column_pivots v w)
  = setAttribute "column-pivots" (JSON.stringify (JArr v)) (viewer w).
Proof. reflexivity. Qed.

Lemma viewer_set_sort v (w : Widget) :
  viewer (set_sort v w) = setAttribute "sort" (JSON.stringify (JArr v)) (viewer w).
Proof. reflexivity. Qed.

Lemma viewer_set_aggregates a (w : Widget) :
  viewer (set_aggregates a w)
  = setAttribute "aggregates" (JSON.stringify (JObj a)) (viewer w).
Proof. reflexivity. Qed.

Lemma viewer_set_columns v (w : Widget) :
  viewer (set_columns v w)
  = if (0 <? length v)%nat
    then setAttribute "columns" (JSON.stringify (JArr v)) (viewer w)
    else removeAttribute "columns" (viewer w).
Proof. unfold set_columns. by destruct (0 <? length v)%nat. Qed.

Lemma viewer_set_expressions v (w : Widget) :
  viewer (set_expressions v w)
  = if (0 <? length v)%nat
    then setAttribute "expressions" (JSON.stringify (JArr v)) (viewer w)
    else removeAttribute "expressions" (viewer w).
Proof. unfold set_expressions. by destruct (0 <? length v)%nat. Qed.

Lemma viewer_set_filters v (w : Widget) :
  viewer (set_filters v w)
  = if (0 <? length v)%nat
    then setAttribute "filters" (JSON.stringify (JArr v)) (viewer w)
    else removeAttribute "filters" (viewer w).
Proof. unfold set_filters. by destruct (0 <? length v)%nat. Qed.

(** What each setter does to the private fields. *)

Lemma fields_set_server b (w : Widget) :
  private_fields (set_server b w)
  = let '(pc, c, _, d, e) := private_fields w in (pc, c, Some b, d, e).
Proof. reflexivity. Qed.

Lemma fields_set_client b (w : Widget) :
  private_fields (set_client b w)
  = let '(pc, _, s, d, e) := private_fields w in (pc, Some b, s, d, e).
Proof. reflexivity. Qed.

Lemma fields_set_dark b (w : Widget) :
  private_fields (set_dark b w)
  = let '(pc, c, s, _, e) := private_fields w in (pc, c, s, Some b, e).
Proof. unfold set_dark. by destruct b, (isAttached w). Qed.

Lemma fields_set_editable b (w : Widget) :
  private_fields (set_editable b w)
  = let '(pc, c, s, d, _) := private_fields w in (pc, c, s, d, Some b).
Proof. by destruct b. Qed.

Lemma fields_set_plugin_config pc (w : Widget) :
  private_fields (set_plugin_config pc w)
  = let '(_, c, s, d, e) := private_fields w in (pc, c, s, d, e).
Proof. by destruct pc. Qed.

Lemma fields_with_viewer f (w : Widget) :
  private_fields (with_viewer f w) = private_fields w.
Proof. reflexivity. Qed.

Lemma fields_set_selectable b (w : Widget) :
  private_fields (set_selectable b w) = private_fields w.
Proof. by destruct b. Qed.

Lemma fields_set_plugin p (w : Widget) :
  private_fields (set_plugin p w) = private_fields w.
Proof. reflexivity. Qed.

Lemma fields_set_row_pivots v (w : Widget) :
  private_fields (set_row_pivots v w) = private_fields w.
Proof. reflexivity. Qed.

Lemma fields_set_column_pivots v (w : Widget) :
  private_fields (set_column_pivots v w) = private_fields w.
Proof. reflexivity. Qed.

Lemma fields_set_sort v (w : Widget) :
  private_fields (set_sort v w) = private_fields w.
Proof. reflexivity. Qed.

Lemma fields_set_aggregates a (w : Widget) :
  private_fields (set_aggregates a w) = private_fields w.
Proof. reflexivity. Qed.

Lemma fields_set_columns v (w : Widget) :
  private_fields (set_columns v w) = private_fields w.
Proof. unfold set_columns. by destruct (0 <? length v)%nat. Qed.

Lemma fields_set_expressions v (w : Widget) :
  private_fields (set_expressions v w) = private_fields w.
Proof. unfold set_expressions. by destruct (0 <? length v)%nat. Qed.

Lemma fields_set_filters v (w : Widget) :
  private_fields (set_filters v w) = private_fields w.
Proof. unfold set_filters. by destruct (0 <? length v)%nat. Qed.

Lemma getAttribute_branch_ne (c : bool) name name' val (e : Element) :
  name <> name' ->
  getAttribute name' (if c then setAttribute name val e else removeAttribute name e)
  = getAttribute name' e.
Proof.
  intros. destruct c;
    [by apply getAttribute_setAttribute_ne | by apply getAttribute_removeAttribute_ne].
Qed.

Lemma getAttribute_branch (c : bool) name val (e : Element) :
  getAttribute name (if c then setAttribute name val e else removeAttribute name e)
  = if c then Some val else None.
Proof.
  destruct c; [apply getAttribute_setAttribute | apply getAttribute_removeAttribute].
Qed.

(** The private fields after [_set_attributes]. *)
Lemma fields_set_attributes (o : PerspectiveWidgetOptions) (w : Widget) :
  private_fields (_set_attributes o w)
  = (Some (js_or (opt_plugin_config o) []),
     Some (js_or (opt_client o) false),
     Some (js_or (opt_server o) false),
     Some (js_or (opt_dark o) false),
     Some (js_or (opt_editable o) false)).
Proof.
  unfold _set_attributes. cbv zeta.
  rewrite fields_set_filters, fields_set_expressions, fields_set_aggregates,
    fields_set_selectable, fields_set_columns, fields_set_sort,
    fields_set_column_pivots, fields_set_row_pivots, fields_set_plugin_config,
    fields_set_plugin, fields_set_editable, fields_set_dark, fields_set_client,
    fields_set_server.
  by destruct (private_fields w) as [[[[? ?] ?] ?] ?].
Qed.

(** The viewer element after [_set_attributes]: the attribute setters
    in the order of the calls, on the viewer element before. *)
Lemma viewer_set_attributes (o : PerspectiveWidgetOptions) (w : Widget) :
  let filters := js_or (opt_filters o) [] in
  let expressions := js_or (opt_expressions o) (js_or (opt_expressions o) []) in
  let columns := js_or (opt_columns o) [] in
  let row_pivots := js_or (opt_row_pivots o) (js_or (opt_row_pivots_dashed o) []) in
  let column_pivots :=
    js_or (opt_column_pivots o) (js_or (opt_column_pivots_dashed o) []) in
  let editable :=
    if js_or (opt_editable o) false
    then setAttribute "editable" EmptyString (viewer w)
    else removeAttribute "editable" (viewer w) in
  let plugin := setAttribute "plugin" (js_or (opt_plugin o) "datagrid") editable in
  let row_pivots :=
    setAttribute "row-pivots" (JSON.stringify (JArr row_pivots)) plugin in
  let column_pivots :=
    setAttribute "column-pivots" (JSON.stringify (JArr column_pivots)) row_pivots in
  let sort :=
    setAttribute "sort" (JSON.stringify (JArr (js_or (opt_sort o) []))) column_pivots in
  let columns :=
    if (0 <? length columns)%nat
    then setAttribute "columns" (JSON.stringify (JArr columns)) sort
    else removeAttribute "columns" sort in
  let selectable :=
    if js_or (opt_selectable o) false
    then setAttribute "selectable" EmptyString columns
    else removeAttribute "selectable" columns in
  let aggregates :=
    setAttribute "aggregates" (JSON.stringify (JObj (js_or (opt_aggregates o) [])))
      selectable in
  let expressions' :=
    if (0 <? length expressions)%nat
    then setAttribute "expressions" (JSON.stringify (JArr expressions)) aggregates
    else removeAttribute "expressions" aggregates in
  viewer (_set_attributes o w)
  = if (0 <? length filters)%nat
    then setAttribute "filters" (JSON.stringify (JArr filters)) expressions'
    else removeAttribute "filters" expressions'.
Proof.
  unfold _set_attributes. cbv zeta.
  by rewrite viewer_set_filters, viewer_set_expressions, viewer_set_aggregates,
    viewer_set_selectable, viewer_set_columns, viewer_set_sort,
    viewer_set_column_pivots, viewer_set_row_pivots, viewer_set_plugin_config,
    viewer_set_plugin, viewer_set_editable, viewer_set_dark, viewer_set_client,
    viewer_set_server.
Qed.

(** Reads an attribute of the viewer element after [_set_attributes]:
    goes back through the setters up to the one that wrote it. *)
Ltac attribute_frame :=
  rewrite viewer_set_attributes; cbv zeta;
  repeat first
    [ rewrite getAttribute_branch_ne by discriminate
    | rewrite getAttribute_setAttribute_ne by discriminate ].

(** C1, as the code has it.  After [_set_attributes]: the [plugin]
    attribute is [options.plugin] when that is provided and not the
    empty string, and [datagrid] otherwise; omitted [columns], [sort],
    [filters], [expressions], [aggregates] and [plugin_config] are
    treated as empty collections; an omitted [row_pivots]
    ([column_pivots]) takes the value of [options["row-pivots"]]
    ([options["column-pivots"]]) when that is provided and is treated as
    an empty collection otherwise; omitted boolean fields are treated
    as [false]. *)
Theorem set_attributes_defaults (o : PerspectiveWidgetOptions) (w : Widget) :
  let r := _set_attributes o w in
  get_plugin r
    = Some (match opt_plugin o with
            | Some p => if String.eqb p EmptyString then "datagrid" else p
            | None => "datagrid"
            end)
  /\ (opt_columns o = None -> getAttribute "columns" (viewer r) = None)
  /\ (opt_row_pivots o = None ->
      getAttribute "row-pivots" (viewer r)
      = Some (JSON.stringify (JArr (default [] (opt_row_pivots_dashed o)))))
  /\ (opt_column_pivots o = None ->
      getAttribute "column-pivots" (viewer r)
      = Some (JSON.stringify (JArr (default [] (opt_column_pivots_dashed o)))))
  /\ (opt_sort o = None -> getAttribute "sort" (viewer r) = Some "[]")
  /\ (opt_filters o = None -> getAttribute "filters" (viewer r) = None)
  /\ (opt_expressions o = None -> getAttribute "expressions" (viewer r) = None)
  /\ (opt_aggregates o = None -> getAttribute "aggregates" (viewer r) = Some "{}")
  /\ (opt_plugin_config o = None -> get_plugin_config r = Some [])
  /\ (opt_dark o = None -> get_dark r = Some false)
  /\ (opt_editable o = None ->
      get_editable r = Some false /\ getAttribute "editable" (viewer r) = None)
  /\ (opt_server o = None -> get_server r = Some false)
  /\ (opt_client o = None -> get_client r = Some false)
  /\ (opt_selectable o = None -> get_selectable r = false).
Proof.
  intros r. subst r.
  pose proof (fields_set_attributes o w) as Hf. unfold private_fields in Hf.
  injection Hf as Hp Hc Hs Hd He.
  unfold get_plugin, get_plugin_config, get_dark, get_editable, get_server,
    get_client, get_selectable, hasAttribute.
  fold (getAttribute "selectable" (viewer (_set_attributes o w))).
  repeat match goal with |- _ /\ _ => split end; try intros Ho;
    rewrite ?Hs, ?Hc, ?Hd, ?He, ?Hp, ?Ho; try reflexivity.
  - attribute_frame. rewrite getAttribute_setAttribute.
    unfold js_or, truthy, string_truthy.
    destruct (opt_plugin o) as [p|]; [|reflexivity]. by destruct (String.eqb p EmptyString).
  - attribute_frame. by rewrite getAttribute_branch, Ho.
  - attribute_frame. rewrite getAttribute_setAttribute, Ho.
    by destruct (opt_row_pivots_dashed o).
  - attribute_frame. rewrite getAttribute_setAttribute, Ho.
    by destruct (opt_column_pivots_dashed o).
  - attribute_frame. by rewrite getAttribute_setAttribute, Ho.
  - attribute_frame. by rewrite getAttribute_branch, Ho.
  - attribute_frame. by rewrite getAttribute_branch, Ho.
  - attribute_frame. by rewrite getAttribute_setAttribute, Ho.
  - split; [reflexivity|].
    attribute_frame. by rewrite getAttribute_branch, Ho.
  - attribute_frame. by rewrite getAttribute_branch, Ho.
Qed.

(** *** Widget ids *)

Lemma list_ascii_of_string_app (a b : string) :
  list_ascii_of_string (a +:+ b) = list_ascii_of_string a ++ list_ascii_of_string b.
Proof. induction a as [|c a IH]; simpl; [done|]. by rewrite IH. Qed.

Lemma print_uint_digits d : Forall (fun c => is_digit c = true) (print_uint d).
Proof. induction d; simpl; constructor; done. Qed.

Lemma print_uint_inj d d' : print_uint d = print_uint d' -> d = d'.
Proof.
  intros Heq.
  pose proof (JSONFacts.parse_digits_print_uint d [] eq_refl) as Hd.
  pose proof (JSONFacts.parse_digits_print_uint d' [] eq_refl) as Hd'.
  rewrite Heq in Hd. congruence.
Qed.

Lemma print_N_inj n n' : print_N n = print_N n' -> n = n'.
Proof. intros Heq%print_uint_inj. by apply DecimalN.Unsigned.to_uint_inj. Qed.

Lemma print_N_no_dash n : "-"%char ∉ print_N n.
Proof.
  intros Hin. pose proof (print_uint_digits (N.to_uint n)) as Hd.
  rewrite Forall_forall in Hd. by apply Hd in Hin.
Qed.

(** The text after the last [c] of a text determines where that [c] is. *)
Lemma split_at_last (c : ascii) (l1 l2 d1 d2 : list ascii) :
  c ∉ d1 -> c ∉ d2 -> l1 ++ c :: d1 = l2 ++ c :: d2 -> l1 = l2 /\ d1 = d2.
Proof.
  intros H1 H2. revert l2. induction l1 as [|x l1 IH]; intros [|y l2] Heq; simpl in *.
  - by injection Heq.
  - injection Heq as <- ->. exfalso. apply H1. apply elem_of_app. right. left.
  - injection Heq as <- <-. exfalso. apply H2. apply elem_of_app. right. left.
  - injection Heq as <- Heq. destruct (IH _ Heq) as [-> ->]. done.
Qed.

Lemma id_text_inj (name name' : string) (n n' : N) :
  name +:+ "-" +:+ number_to_string n = name' +:+ "-" +:+ number_to_string n' ->
  name = name' /\ n = n'.
Proof.
  intros Heq. apply (f_equal list_ascii_of_string) in Heq.
  rewrite !list_ascii_of_string_app in Heq. unfold number_to_string in Heq.
  rewrite !list_ascii_of_string_of_list_ascii in Heq. simpl in Heq.
  apply split_at_last in Heq as [Hn Hd]; [|apply print_N_no_dash..].
  split; [|by apply print_N_inj].
  rewrite <- (string_of_list_ascii_of_string name),
    <- (string_of_list_ascii_of_string name'). by rewrite Hn.
Qed.

(** The setters leave the id alone. *)
Lemma id_set_attributes (o : PerspectiveWidgetOptions) (w : Widget) :
  id (_set_attributes o w) = id w.
Proof.
  unfold _set_attributes. cbv zeta.
  repeat match goal with
         | |- id (?f ?v ?w') = _ =>
             transitivity (id w');
             [generalize w'; intros ?;
              unfold set_filters, set_expressions, set_aggregates, set_selectable,
                set_columns, set_sort, set_column_pivots, set_row_pivots,
                set_plugin_config, set_plugin, set_editable, set_dark,
                set_client, set_server;
              repeat case_match; reflexivity|]
         end.
  reflexivity.
Qed.

Lemma id_constructor bound name options (n : N) :
  id (fst (constructor (Table := Table) (TableData := TableData)
             bound name options n))
  = default "Perspective" name +:+ "-" +:+ number_to_string n
  /\ snd (constructor (Table := Table) (TableData := TableData)
            bound name options n) = (n + 1)%N.
Proof.
  unfold constructor. destruct (createNode _ _) as [[nd vw] calls]. simpl.
  rewrite id_set_attributes. by destruct name.
Qed.

Lemma construct_all_lookup bound args (n : N) (i : nat) (w : Widget) :
  construct_all bound args n !! i = Some w ->
  exists name options,
    args !! i = Some (name, options)
    /\ w = fst (constructor bound name options (n + N.of_nat i)).
Proof.
  revert n i. induction args as [|[name options] args IH]; intros n i; simpl; [done|].
  pose proof (id_constructor bound name options n) as [_ Hn].
  destruct (constructor bound name options n) as [w0 n0]. simpl in Hn. subst n0.
  destruct i as [|i]; simpl.
  - intros [= <-]. exists name, options. by rewrite N.add_0_r.
  - intros (name' & options' & Ha & ->)%IH. exists name', options'.
    split; [done|]. by replace (n + N.of_nat (S i))%N with (n + 1 + N.of_nat i)%N by lia.
Qed.

(** C8.  Two distinct constructions of one session give widgets with
    different ids, whatever their names. *)
Theorem widget_ids_unique bound args (i j : nat) (wi wj : Widget) :
  i <> j ->
  session bound args !! i = Some wi ->
  session bound args !! j = Some wj ->
  id wi <> id wj.
Proof.
  intros Hij (ni & oi & _ & ->)%construct_all_lookup
    (nj & oj & _ & ->)%construct_all_lookup Heq.
  destruct (id_constructor bound ni oi (0 + N.of_nat i)) as [Hi _].
  destruct (id_constructor bound nj oj (0 + N.of_nat j)) as [Hj _].
  rewrite Hi, Hj in Heq. apply id_text_inj in Heq as [_ Heq]. lia.
Qed.

End WidgetFacts.

(** ** The widget under any sequence of calls *)

Section MethodFacts.

Context {Table TableData : Type}.
Context `{Utils}.

Abbreviation Widget := (@PerspectiveWidget Table TableData).

(** *** What each setter leaves alone *)

Ltac setter_frame := intros; unfold set_columns, set_expressions, set_filters,
  set_selectable, set_editable, set_dark, set_plugin_config;
  repeat case_match; reflexivity.

Lemma lumino_set_server b (w : Widget) :
  lumino_state (set_server b w) = lumino_state w.
Proof. setter_frame. Qed.

Lemma lumino_set_client b (w : Widget) :
  lumino_state (set_client b w) = lumino_state w.
Proof. setter_frame. Qed.

Lemma lumino_set_dark b (w : Widget) :
  lumino_state (set_dark b w) = lumino_state w.
Proof. setter_frame. Qed.

Lemma lumino_set_editable b (w : Widget) :
  lumino_state (set_editable b w) = lumino_state w.
Proof. setter_frame. Qed.

Lemma lumino_set_plugin p (w : Widget) :
  lumino_state (set_plugin p w) = lumino_state w.
Proof. setter_frame. Qed.

Lemma lumino_set_plugin_config pc (w : Widget) :
  lumino_state (set_plugin_config pc w) = lumino_state w.
Proof. setter_frame. Qed.

Lemma lumino_set_row_pivots v (w : Widget) :
  lumino_state (set_row_pivots v w) = lumino_state w.
Proof. setter_frame. Qed.

Lemma lumino_set_column_pivots v (w : Widget) :
  lumino_state (set_column_pivots v w) = lumino_state w.
Proof. setter_frame. Qed.

Lemma lumino_set_sort v (w : Widget) :
  lumino_state (set_sort v w) = lumino_state w.
Proof. setter_frame. Qed.

Lemma lumino_set_columns v (w : Widget) :
  lumino_state (set_columns v w) = lumino_state w.
Proof. setter_frame. Qed.

Lemma lumino_set_selectable b (w : Widget) :
  lumino_state (set_selectable b w) = lumino_state w.
Proof. setter_frame. Qed.

Lemma lumino_set_aggregates a (w : Widget) :
  lumino_state (set_aggregates a w) = lumino_state w.
Proof. setter_frame. Qed.

Lemma lumino_set_expressions v (w : Widget) :
  lumino_state (set_expressions v w) = lumino_state w.
Proof. setter_frame. Qed.

Lemma lumino_set_filters v (w : Widget) :
  lumino_state (set_filters v w) = lumino_state w.
Proof. setter_frame. Qed.

Lemma node_set_server b (w : Widget) : node (set_server b w) = node w.
Proof. setter_frame. Qed.

Lemma node_set_client b (w : Widget) : node (set_client b w) = node w.
Proof. setter_frame. Qed.

Lemma node_set_editable b (w : Widget) : node (set_editable b w) = node w.
Proof. setter_frame. Qed.

Lemma node_set_plugin p (w : Widget) : node (set_plugin p w) = node w.
Proof. setter_frame. Qed.

Lemma node_set_plugin_config pc (w : Widget) : node (set_plugin_config pc w) = node w.
Proof. setter_frame. Qed.

Lemma node_set_row_pivots v (w : Widget) : node (set_row_pivots v w) = node w.
Proof. setter_frame. Qed.

Lemma node_set_column_pivots v (w : Widget) : node (set_column_pivots v w) = node w.
Proof. setter_frame. Qed.

Lemma node_set_sort v (w : Widget) : node (set_sort v w) = node w.
Proof. setter_frame. Qed.

Lemma node_set_columns v (w : Widget) : node (set_columns v w) = node w.
Proof. setter_frame. Qed.

Lemma node_set_selectable b (w : Widget) : node (set_selectable b w) = node w.
Proof. setter_frame. Qed.

Lemma node_set_aggregates a (w : Widget) : node (set_aggregates a w) = node w.
Proof. setter_frame. Qed.

Lemma node_set_expressions v (w : Widget) : node (set_expressions v w) = node w.
Proof. setter_frame. Qed.

Lemma node_set_filters v (w : Widget) : node (set_filters v w) = node w.
Proof. setter_frame. Qed.

Lemma node_set_dark b (w : Widget) :
  node (set_dark b w)
  = if b then classList_remove PSP_CONTAINER_CLASS
                (classList_add PSP_CONTAINER_CLASS_DARK (node w))
    else classList_remove PSP_CONTAINER_CLASS_DARK
           (classList_add PSP_CONTAINER_CLASS (node w)).
Proof. setter_frame. Qed.

Lemma calls_set_server b (w : Widget) :
  viewer_calls (set_server b w) = viewer_calls w.
Proof. setter_frame. Qed.

Lemma calls_set_client b (w : Widget) :
  viewer_calls (set_client b w) = viewer_calls w.
Proof. setter_frame. Qed.

Lemma calls_set_editable b (w : Widget) :
  viewer_calls (set_editable b w) = viewer_calls w.
Proof. setter_frame. Qed.

Lemma calls_set_plugin p (w : Widget) :
  viewer_calls (set_plugin p w) = viewer_calls w.
Proof. setter_frame. Qed.

Lemma calls_set_row_pivots v (w : Widget) :
  viewer_calls (set_row_pivots v w) = viewer_calls w.
Proof. setter_frame. Qed.

Lemma calls_set_column_pivots v (w : Widget) :
  viewer_calls (set_column_pivots v w) = viewer_calls w.
Proof. setter_frame. Qed.

Lemma calls_set_sort v (w : Widget) :
  viewer_calls (set_sort v w) = viewer_calls w.
Proof. setter_frame. Qed.

Lemma calls_set_columns v (w : Widget) :
  viewer_calls (set_columns v w) = viewer_calls w.
Proof. setter_frame. Qed.

Lemma calls_set_selectable b (w : Widget) :
  viewer_calls (set_selectable b w) = viewer_calls w.
Proof. setter_frame. Qed.

Lemma calls_set_aggregates a (w : Widget) :
  viewer_calls (set_aggregates a w) = viewer_calls w.
Proof. setter_frame. Qed.

Lemma calls_set_expressions v (w : Widget) :
  viewer_calls (set_expressions v w) = viewer_calls w.
Proof. setter_frame. Qed.

Lemma calls_set_filters v (w : Widget) :
  viewer_calls (set_filters v w) = viewer_calls w.
Proof. setter_frame. Qed.

Lemma calls_set_dark b (w : Widget) :
  viewer_calls (set_dark b w)
  = viewer_calls w ++ (if isAttached w then [viewer_restyleElement] else []).
Proof.
  unfold set_dark. destruct b; simpl; destruct (isAttached w); simpl;
    by rewrite ?app_nil_r.
Qed.

Lemma calls_set_plugin_config pc (w : Widget) :
  viewer_calls (set_plugin_config pc w)
  = viewer_calls w
    ++ match pc with
       | Some c => [viewer_restore [("plugin_config", JObj c)]]
       | None => []
       end.
Proof. destruct pc; simpl; by rewrite ?app_nil_r. Qed.

(** *** [_set_attributes] as a whole *)

Lemma lumino_set_attributes o (w : Widget) :
  lumino_state (_set_attributes o w) = lumino_state w.
Proof.
  unfold _set_attributes. cbv zeta.
  by rewrite lumino_set_filters, lumino_set_expressions, lumino_set_aggregates,
    lumino_set_selectable, lumino_set_columns, lumino_set_sort,
    lumino_set_column_pivots, lumino_set_row_pivots, lumino_set_plugin_config,
    lumino_set_plugin, lumino_set_editable, lumino_set_dark, lumino_set_client,
    lumino_set_server.
Qed.

Lemma node_set_attributes o (w : Widget) :
  node (_set_attributes o w) = node (set_dark (js_or (opt_dark o) false) w).
Proof.
  unfold _set_attributes. cbv zeta.
  rewrite node_set_filters, node_set_expressions, node_set_aggregates,
    node_set_selectable, node_set_columns, node_set_sort,
    node_set_column_pivots, node_set_row_pivots, node_set_plugin_config,
    node_set_plugin, node_set_editable.
  by rewrite !node_set_dark, node_set_client, node_set_server.
Qed.

Lemma calls_set_attributes o (w : Widget) :
  viewer_calls (_set_attributes o w)
  = viewer_calls w
    ++ (if isAttached w then [viewer_restyleElement] else [])
    ++ [viewer_restore [("plugin_config", JObj (js_or (opt_plugin_config o) []))]].
Proof.
  unfold _set_attributes. cbv zeta.
  rewrite calls_set_filters, calls_set_expressions, calls_set_aggregates,
    calls_set_selectable, calls_set_columns, calls_set_sort,
    calls_set_column_pivots, calls_set_row_pivots, calls_set_plugin_config,
    calls_set_plugin, calls_set_editable, calls_set_dark, calls_set_client,
    calls_set_server.
  cbn [isAttached set_client set_server]. by rewrite <- app_assoc.
Qed.

(** *** Attributes under any call *)

Lemma viewer_run_other (m : Method) (w : Widget) :
  written_attributes m = [] -> viewer (run m w) = viewer w.
Proof.
  destruct m; cbn [run written_attributes]; try discriminate; intros _;
    unfold onAfterShow, onResize, onActivateRequest, notifyResize, toggleConfig;
    repeat case_match;
    rewrite ?viewer_set_plugin_config, ?viewer_set_dark; reflexivity.
Qed.

Lemma getAttribute_run (m : Method) (name : string) (w : Widget) :
  name ∉ written_attributes m ->
  getAttribute name (viewer (run m w)) = getAttribute name (viewer w).
Proof.
  intros Hname.
  destruct m; cbn [written_attributes] in Hname;
    try (by rewrite viewer_run_other);
    cbn [run]; unfold managed_attributes in *;
    repeat match type of Hname with
           | _ ∉ [] => clear Hname
           | _ ∉ _ :: _ => apply not_elem_of_cons in Hname as [? Hname]
           end.
  - rewrite viewer_set_attributes. cbv zeta.
    by repeat first
      [ rewrite getAttribute_branch_ne by done
      | rewrite getAttribute_setAttribute_ne by done ].
  - rewrite viewer_set_plugin. by apply getAttribute_setAttribute_ne.
  - rewrite viewer_set_columns. by apply getAttribute_branch_ne.
  - rewrite viewer_set_row_pivots. by apply getAttribute_setAttribute_ne.
  - rewrite viewer_set_column_pivots. by apply getAttribute_setAttribute_ne.
  - rewrite viewer_set_aggregates. by apply getAttribute_setAttribute_ne.
  - rewrite viewer_set_sort. by apply getAttribute_setAttribute_ne.
  - rewrite viewer_set_expressions. by apply getAttribute_branch_ne.
  - rewrite viewer_set_filters. by apply getAttribute_branch_ne.
  - rewrite viewer_set_editable. by apply getAttribute_branch_ne.
  - rewrite viewer_set_selectable. by apply getAttribute_branch_ne.
Qed.

(** X1.  A call changes no attribute of the viewer element but those it
    is for: an assignment to a property leaves every attribute other
    than its own as it was, [_set_attributes] leaves every attribute it
    does not manage as it was, and the other calls change none. *)
Theorem attributes_frame (m : Method) (name : string) (w : Widget) :
  name ∉ written_attributes m ->
  getAttribute name (viewer (run m w)) = getAttribute name (viewer w).
Proof. apply getAttribute_run. Qed.


(** *** What no call changes *)

Lemma lumino_run (m : Method) (w : Widget) :
  lumino_state (run m w) = lumino_state w.
Proof.
  destruct m; cbn [run];
    unfold onAfterShow, onResize, onActivateRequest, notifyResize, toggleConfig;
    repeat case_match;
    first [ reflexivity | apply lumino_set_attributes | apply lumino_set_plugin
          | apply lumino_set_columns | apply lumino_set_row_pivots
          | apply lumino_set_column_pivots | apply lumino_set_aggregates
          | apply lumino_set_sort | apply lumino_set_expressions
          | apply lumino_set_filters | apply lumino_set_plugin_config
          | apply lumino_set_dark | apply lumino_set_editable
          | apply lumino_set_selectable ].
Qed.

Lemma node_run_other (m : Method) (w : Widget) :
  (forall options, m <> call_set_attributes options) ->
  (forall dark, m <> assign_dark dark) ->
  node (run m w) = node w.
Proof.
  intros Hs Hd. destruct m; cbn [run];
    try (by destruct (Hs options)); try (by destruct (Hd dark));
    unfold onAfterShow, onResize, onActivateRequest, notifyResize, toggleConfig;
    repeat case_match;
    first [ reflexivity | apply node_set_plugin
          | apply node_set_columns | apply node_set_row_pivots
          | apply node_set_column_pivots | apply node_set_aggregates
          | apply node_set_sort | apply node_set_expressions
          | apply node_set_filters | apply node_set_plugin_config
          | apply node_set_editable | apply node_set_selectable ].
Qed.

Lemma node_set_dark_rest b (w : Widget) :
  attributes (node (set_dark b w)) = attributes (node w)
  /\ children (node (set_dark b w)) = children (node w).
Proof. rewrite node_set_dark. by destruct b. Qed.

Lemma node_run_rest (m : Method) (w : Widget) :
  attributes (node (run m w)) = attributes (node w)
  /\ children (node (run m w)) = children (node w).
Proof.
  destruct m;
    try (rewrite node_run_other; [done|discriminate|discriminate]); cbn [run].
  - rewrite node_set_attributes. apply node_set_dark_rest.
  - apply node_set_dark_rest.
Qed.

Lemma viewer_branch_rest (c : bool) name val (e : Element) :
  classList (if c then setAttribute name val e else removeAttribute name e)
    = classList e
  /\ children (if c then setAttribute name val e else removeAttribute name e)
    = children e.
Proof. by destruct c. Qed.

Lemma viewer_run_rest (m : Method) (w : Widget) :
  classList (viewer (run m w)) = classList (viewer w)
  /\ children (viewer (run m w)) = children (viewer w).
Proof.
  destruct m; try (by rewrite viewer_run_other); cbn [run].
  - rewrite viewer_set_attributes. cbv zeta.
    repeat match goal with
           | |- context [if ?c then setAttribute ?n ?v ?e else removeAttribute ?n ?e] =>
               rewrite (proj1 (viewer_branch_rest c n v e)),
                 (proj2 (viewer_branch_rest c n v e))
           | |- _ => progress cbn [classList children setAttribute]
           end.
    done.
  - by rewrite viewer_set_plugin.
  - rewrite viewer_set_columns. apply viewer_branch_rest.
  - by rewrite viewer_set_row_pivots.
  - by rewrite viewer_set_column_pivots.
  - by rewrite viewer_set_aggregates.
  - by rewrite viewer_set_sort.
  - rewrite viewer_set_expressions. apply viewer_branch_rest.
  - rewrite viewer_set_filters. apply viewer_branch_rest.
  - rewrite viewer_set_editable. apply viewer_branch_rest.
  - rewrite viewer_set_selectable. apply viewer_branch_rest.
Qed.

(** X2.  No call changes the id, the title or the two flags of the
    widget, the children of its node, or the class list or the
    children of the viewer element.  (The classes of the node are
    changed, by the [dark] setter.) *)
Theorem calls_keep_identity (m : Method) (w : Widget) :
  lumino_state (run m w) = lumino_state w
  /\ children (node (run m w)) = children (node w)
  /\ classList (viewer (run m w)) = classList (viewer w)
  /\ children (viewer (run m w)) = children (viewer w).
Proof.
  split; [apply lumino_run|].
  split; [apply node_run_rest|].
  apply viewer_run_rest.
Qed.

Lemma fields_run_forwards (m : Method) (w : Widget) :
  forwards m = true -> private_fields (run m w) = private_fields w.
Proof.
  destruct m; try discriminate; intros _; cbn [run];
    unfold onAfterShow, onResize, onActivateRequest, notifyResize, toggleConfig;
    repeat case_match; reflexivity.
Qed.

(** X3.  The Lumino handlers, [notifyResize], [toggleConfig], [save],
    [restore], [getEditPort] and the data operations touch nothing but
    the viewer's methods: node, viewer element, private fields, id,
    title and flags are as before. *)
Theorem forwarding_calls_frame (m : Method) (w : Widget) :
  forwards m = true ->
  node (run m w) = node w
  /\ viewer (run m w) = viewer w
  /\ private_fields (run m w) = private_fields w
  /\ lumino_state (run m w) = lumino_state w.
Proof.
  intros Hm. split; [|split; [|split]].
  - apply node_run_other; intros ? ->; discriminate.
  - apply viewer_run_other. by destruct m.
  - by apply fields_run_forwards.
  - apply lumino_run.
Qed.


(** *** Assignments one after the other *)

Lemma Element_eq (e e' : Element) :
  attributes e = attributes e' -> classList e = classList e' ->
  children e = children e' -> e = e'.
Proof. destruct e, e'. simpl. by intros -> -> ->. Qed.

Lemma setAttribute_twice name val val' (e : Element) :
  setAttribute name val (setAttribute name val' e) = setAttribute name val e.
Proof. apply Element_eq; try done. apply insert_insert_eq. Qed.

Lemma setAttribute_removeAttribute name val (e : Element) :
  setAttribute name val (removeAttribute name e) = setAttribute name val e.
Proof. apply Element_eq; try done. apply insert_delete_eq. Qed.

Lemma removeAttribute_setAttribute name val (e : Element) :
  removeAttribute name (setAttribute name val e) = removeAttribute name e.
Proof. apply Element_eq; try done. apply delete_insert_eq. Qed.

Lemma removeAttribute_twice name (e : Element) :
  removeAttribute name (removeAttribute name e) = removeAttribute name e.
Proof. apply Element_eq; try done. apply delete_delete_eq. Qed.

Lemma setAttribute_comm name name' val val' (e : Element) :
  name <> name' ->
  setAttribute name val (setAttribute name' val' e)
  = setAttribute name' val' (setAttribute name val e).
Proof. intros. apply Element_eq; try done. by apply insert_insert_ne. Qed.

Lemma setAttribute_removeAttribute_comm name name' val (e : Element) :
  name <> name' ->
  setAttribute name val (removeAttribute name' e)
  = removeAttribute name' (setAttribute name val e).
Proof. intros. apply Element_eq; try done. symmetry. by apply delete_insert_ne. Qed.

Lemma removeAttribute_comm name name' (e : Element) :
  removeAttribute name (removeAttribute name' e)
  = removeAttribute name' (removeAttribute name e).
Proof. apply Element_eq; try done. apply delete_delete. Qed.

Ltac unfold_assignments :=
  cbn [run];
  unfold set_plugin, set_columns, set_row_pivots, set_column_pivots,
    set_aggregates, set_sort, set_expressions, set_filters, set_editable,
    set_selectable, set_client, set_server, with_viewer;
  repeat case_match; cbn.

Ltac same_attributes :=
  first
    [ reflexivity
    | apply setAttribute_twice
    | apply setAttribute_removeAttribute
    | apply removeAttribute_setAttribute
    | apply removeAttribute_twice
    | apply removeAttribute_comm
    | apply setAttribute_comm; discriminate
    | apply setAttribute_removeAttribute_comm; discriminate
    | symmetry; apply setAttribute_removeAttribute_comm; discriminate ].

Lemma assignment_overwrites (m m' : Method) (w : Widget) :
  length (written_attributes m) = 1%nat ->
  written_attributes m = written_attributes m' ->
  run m (run m' w) = run m w.
Proof.
  intros Hm Heq.
  destruct m; try discriminate Hm; destruct m'; try discriminate Heq;
    unfold_assignments; f_equal; same_attributes.
Qed.

(** X4.  Of two assignments in a row to the same attribute-backed
    property, only the last one counts: the widget is as if the first
    had not been made. *)
Theorem last_assignment_wins (m m' : Method) (w : Widget) :
  length (written_attributes m) = 1%nat ->
  written_attributes m = written_attributes m' ->
  run m (run m' w) = run m w.
Proof. apply assignment_overwrites. Qed.

(** X5.  Assignments to two different attribute-backed properties can
    be made in either order: the widget is the same. *)
Theorem assignments_commute (m m' : Method) (w : Widget) :
  length (written_attributes m) = 1%nat ->
  length (written_attributes m') = 1%nat ->
  written_attributes m <> written_attributes m' ->
  run m (run m' w) = run m' (run m w).
Proof.
  intros Hm Hm' Hne.
  destruct m; try discriminate Hm; destruct m'; try discriminate Hm';
    try (by destruct Hne);
    unfold_assignments; f_equal; same_attributes.
Qed.


(** *** Boolean attributes and dark mode *)

Lemma hasAttribute_branch (c : bool) name val (e : Element) :
  hasAttribute name (if c then setAttribute name val e else removeAttribute name e)
  = c.
Proof.
  unfold hasAttribute. fold (getAttribute name (if c then setAttribute name val e
                                                 else removeAttribute name e)).
  rewrite getAttribute_branch. by destruct c.
Qed.

(** X6.  [selectable] reads back what was assigned, through the
    attribute; after an assignment to [editable] the attribute is
    there exactly when the value is true, and the getter gives the
    value. *)
Theorem boolean_attributes_read_back (b : bool) (w : Widget) :
  get_selectable (set_selectable b w) = b
  /\ hasAttribute "editable" (viewer (set_editable b w)) = b
  /\ get_editable (set_editable b w) = Some b.
Proof.
  unfold get_selectable. rewrite viewer_set_selectable, viewer_set_editable.
  rewrite !hasAttribute_branch. repeat split. by destruct b.
Qed.

Lemma classList_add_spec (c c' : string) (e : Element) :
  c' ∈ classList (classList_add c e) <-> c' = c \/ c' ∈ classList e.
Proof.
  unfold classList_add. simpl. case_bool_decide as Hin.
  - split; [by right|]. by intros [->|].
  - rewrite elem_of_app, list_elem_of_singleton. tauto.
Qed.

Lemma classList_remove_spec (c c' : string) (e : Element) :
  c' ∈ classList (classList_remove c e) <-> c' <> c /\ c' ∈ classList e.
Proof. unfold classList_remove. simpl. by rewrite list_elem_of_filter. Qed.

Lemma classList_add_NoDup (c : string) (e : Element) :
  NoDup (classList e) -> NoDup (classList (classList_add c e)).
Proof.
  intros Hnd. unfold classList_add. simpl. case_bool_decide as Hin; [done|].
  apply NoDup_app. split; [done|]. split; [|apply NoDup_singleton].
  intros x Hx ->%list_elem_of_singleton. done.
Qed.

Lemma classList_remove_NoDup (c : string) (e : Element) :
  NoDup (classList e) -> NoDup (classList (classList_remove c e)).
Proof. intros. unfold classList_remove. simpl. by apply NoDup_filter. Qed.

(** X7.  An assignment to [dark] adds and removes the two container
    classes only: any other class is on the node after it exactly when
    it was before, and a class list without repetition stays so. *)
Theorem dark_keeps_other_classes (dark : bool) (c : string) (w : Widget) :
  c <> PSP_CONTAINER_CLASS -> c <> PSP_CONTAINER_CLASS_DARK ->
  (c ∈ classList (node (set_dark dark w)) <-> c ∈ classList (node w))
  /\ (NoDup (classList (node w)) -> NoDup (classList (node (set_dark dark w)))).
Proof.
  intros Hl Hd. rewrite node_set_dark. destruct dark.
  - split.
    + rewrite classList_remove_spec, classList_add_spec. tauto.
    + intros. by apply classList_remove_NoDup, classList_add_NoDup.
  - split.
    + rewrite classList_remove_spec, classList_add_spec. tauto.
    + intros. by apply classList_remove_NoDup, classList_add_NoDup.
Qed.


(** *** [_set_attributes], read back *)

Lemma js_or_list {A} (x : option (list A)) (d : list A) : js_or x d = default d x.
Proof. by destruct x. Qed.

Lemma js_or_bool (x : option bool) : js_or x false = default false x.
Proof. by destruct x as [[|]|]. Qed.

Lemma parse_attribute_array (c : bool) (l : list value) :
  JSON.wf (JArr l) = true -> c = (0 <? length l)%nat ->
  parse_attribute (if c then Some (JSON.stringify (JArr l)) else None)
  = Some (array_or_null l).
Proof.
  intros Hwf ->. destruct l as [|x l]; [reflexivity|].
  cbn [length Nat.ltb Nat.leb array_or_null]. unfold parse_attribute.
  by apply JSONFacts.parse_stringify.
Qed.

Lemma parse_attribute_stringify (v : value) :
  JSON.wf v = true -> parse_attribute (Some (JSON.stringify v)) = Some v.
Proof. apply JSONFacts.parse_stringify. Qed.

(** Reads an attribute of the viewer element after [_set_attributes]:
    back through the setters to the one that wrote it. *)
Ltac read_attribute :=
  rewrite viewer_set_attributes; cbv zeta;
  repeat first
    [ rewrite getAttribute_branch_ne by discriminate
    | rewrite getAttribute_setAttribute_ne by discriminate ];
  first [ rewrite getAttribute_branch | rewrite getAttribute_setAttribute ].

(** X8.  After [_set_attributes] the getters give back the options:
    [columns], [filters] and [expressions] give the array of the
    options, or [null] when it is empty or omitted; [row_pivots],
    [column_pivots], [sort] and [aggregates] give the value of the
    options, or the empty array or object; [selectable] gives the
    option, or [false].  The collections are JavaScript values of the
    model, [options_wf]. *)
Theorem set_attributes_reads_back (o : PerspectiveWidgetOptions) (w : Widget) :
  options_wf o = true ->
  let r := _set_attributes o w in
  get_columns r = Some (array_or_null (default [] (opt_columns o)))
  /\ get_filters r = Some (array_or_null (default [] (opt_filters o)))
  /\ get_expressions r = Some (array_or_null (default [] (opt_expressions o)))
  /\ get_row_pivots r
     = Some (JArr (default (default [] (opt_row_pivots_dashed o)) (opt_row_pivots o)))
  /\ get_column_pivots r
     = Some (JArr (default (default [] (opt_column_pivots_dashed o))
                     (opt_column_pivots o)))
  /\ get_sort r = Some (JArr (default [] (opt_sort o)))
  /\ get_aggregates r = Some (JObj (default [] (opt_aggregates o)))
  /\ get_selectable r = default false (opt_selectable o).
Proof.
  intros Hwf r. subst r. unfold options_wf in Hwf.
  rewrite !andb_true_iff in Hwf.
  destruct Hwf as [[[[[[[[Hc Hr] Hrd] Hp] Hpd] Ha] Hs] Hf] He].
  unfold get_columns, get_filters, get_expressions, get_row_pivots,
    get_column_pivots, get_sort, get_aggregates, get_selectable.
  repeat match goal with |- _ /\ _ => split end.
  - read_attribute. rewrite js_or_list. by apply parse_attribute_array.
  - read_attribute. rewrite js_or_list. by apply parse_attribute_array.
  - read_attribute. rewrite !js_or_list.
    replace (default (default [] (opt_expressions o)) (opt_expressions o))
      with (default [] (opt_expressions o)) by by destruct (opt_expressions o).
    by apply parse_attribute_array.
  - read_attribute. rewrite !js_or_list. apply parse_attribute_stringify.
    by destruct (opt_row_pivots o).
  - read_attribute. rewrite !js_or_list. apply parse_attribute_stringify.
    by destruct (opt_column_pivots o).
  - read_attribute. rewrite js_or_list. by apply parse_attribute_stringify.
  - read_attribute. rewrite (js_or_list (opt_aggregates o)).
    by apply parse_attribute_stringify.
  - rewrite viewer_set_attributes. cbv zeta. unfold hasAttribute.
    match goal with
    | |- bool_decide (is_Some (attributes ?e !! ?n)) = _ =>
        change (attributes e !! n) with (getAttribute n e)
    end.
    repeat first
      [ rewrite getAttribute_branch_ne by discriminate
      | rewrite getAttribute_setAttribute_ne by discriminate ].
    rewrite getAttribute_branch, js_or_bool.
    by destruct (default false (opt_selectable o)).
Qed.

(** X9.  What [_set_attributes] leaves in an attribute it manages
    depends on the options only, not on the widget it is applied to. *)
Theorem managed_attributes_determined (o : PerspectiveWidgetOptions)
    (name : string) (w w' : Widget) :
  name ∈ managed_attributes ->
  getAttribute name (viewer (_set_attributes o w))
  = getAttribute name (viewer (_set_attributes o w')).
Proof.
  unfold managed_attributes. intros Hin.
  repeat match type of Hin with
         | _ ∈ _ :: _ => apply elem_of_cons in Hin as [->|Hin]
         | _ ∈ [] => by apply elem_of_nil in Hin
         end;
    by do 2 read_attribute.
Qed.


(** *** [_set_attributes] twice, and the calls it makes *)

Lemma filter_twice (c : string) (l : list string) :
  filter (fun c' => c' ≠ c) (filter (fun c' => c' ≠ c) l)
  = filter (fun c' => c' ≠ c) l.
Proof.
  induction l as [|x l IH]; [done|].
  rewrite !filter_cons. case_decide as Hx; [|done].
  rewrite filter_cons. case_decide; [|done]. by rewrite IH.
Qed.

Lemma classList_add_remove_twice (c c' : string) (e : Element) :
  classList_remove c' (classList_add c (classList_remove c' (classList_add c e)))
  = classList_remove c' (classList_add c e).
Proof.
  apply Element_eq; try done.
  set (e1 := classList_remove c' (classList_add c e)).
  assert (Hfix : filter (fun x => x ≠ c') (classList e1) = classList e1)
    by apply filter_twice.
  unfold classList_remove at 1. cbn [classList].
  unfold classList_add. cbn [classList].
  case_bool_decide as Hin; [done|].
  rewrite filter_app, Hfix. rewrite filter_cons, filter_nil.
  case_decide as Hc; [|by rewrite app_nil_r].
  exfalso. apply Hin. subst e1. apply classList_remove_spec. split; [done|].
  apply classList_add_spec. by left.
Qed.

Lemma node_set_dark_twice b (w w' : Widget) :
  node w' = node (set_dark b w) -> node (set_dark b w') = node (set_dark b w).
Proof.
  intros Hw'. rewrite (node_set_dark b w'), Hw', node_set_dark.
  destruct b; apply classList_add_remove_twice.
Qed.

Lemma viewer_set_attributes_twice o (w : Widget) :
  viewer (_set_attributes o (_set_attributes o w)) = viewer (_set_attributes o w).
Proof.
  apply Element_eq.
  - apply map_eq. intros name.
    change (getAttribute name (viewer (_set_attributes o (_set_attributes o w)))
            = getAttribute name (viewer (_set_attributes o w))).
    destruct (decide (name ∈ managed_attributes)) as [Hin|Hout].
    + revert Hin. unfold managed_attributes. intros Hin.
      repeat match type of Hin with
             | _ ∈ _ :: _ => apply elem_of_cons in Hin as [->|Hin]
             | _ ∈ [] => by apply elem_of_nil in Hin
             end;
        by do 2 read_attribute.
    + apply (getAttribute_run (call_set_attributes o)). exact Hout.
  - apply (viewer_run_rest (call_set_attributes o)).
  - apply (viewer_run_rest (call_set_attributes o)).
Qed.

(** X10.  Applying the same options twice gives the widget of applying
    them once, but for the calls on the viewer, which are made again. *)
Theorem set_attributes_idempotent (o : PerspectiveWidgetOptions) (w : Widget) :
  let once := _set_attributes o w in
  let twice := _set_attributes o once in
  node twice = node once
  /\ viewer twice = viewer once
  /\ private_fields twice = private_fields once
  /\ lumino_state twice = lumino_state once.
Proof.
  cbv zeta. split; [|split; [|split]].
  - rewrite (node_set_attributes o (_set_attributes o w)).
    rewrite (node_set_attributes o w).
    apply node_set_dark_twice. apply node_set_attributes.
  - apply viewer_set_attributes_twice.
  - by rewrite !fields_set_attributes.
  - by rewrite lumino_set_attributes.
Qed.

(** X11.  The calls [_set_attributes] makes on the viewer are
    [restyleElement], when the widget is attached, and then [restore]
    with the plugin configuration of the options (the empty object
    when omitted), and no other. *)
Theorem set_attributes_calls (o : PerspectiveWidgetOptions) (w : Widget) :
  calls_since w (_set_attributes o w)
  = (if isAttached w then [viewer_restyleElement] else [])
    ++ [viewer_restore [("plugin_config", JObj (default [] (opt_plugin_config o)))]].
Proof.
  unfold calls_since. rewrite calls_set_attributes, drop_app_length.
  by rewrite (js_or_list (opt_plugin_config o)).
Qed.


(** *** Construction *)

Lemma constructor_eq bound nm options (n : N) :
  constructor (Table := Table) (TableData := TableData) bound nm options n
  = let opts := default no_options options in
    let c := createNode bound (default createElement (opt_bindto opts)) in
    (_set_attributes opts
       {| node := c.1.1; isAttached := false; isVisible := false;
          title_label := default "Perspective" nm;
          title_caption := default "Perspective" nm;
          id := default "Perspective" nm +:+ "-" +:+ number_to_string n;
          _viewer := c.1.2; viewer_calls := c.2;
          _plugin_config := None; _client := None; _server := None;
          _dark := None; _editable := None |},
     (n + 1)%N).
Proof. by destruct nm, options. Qed.

(** X12.  A constructed widget has the given name, or [Perspective], as
    its name and caption, the name followed by [-] and the counter as
    its id, and is neither attached nor visible; the counter has grown
    by one. *)
Theorem constructor_identity bound nm options (n : N) :
  let w := fst (constructor (Table := Table) (TableData := TableData)
                  bound nm options n) in
  name w = default "Perspective" nm
  /\ title_caption w = default "Perspective" nm
  /\ id w = default "Perspective" nm +:+ "-" +:+ number_to_string n
  /\ isAttached w = false
  /\ isVisible w = false
  /\ snd (constructor (Table := Table) (TableData := TableData)
            bound nm options n) = (n + 1)%N.
Proof.
  rewrite constructor_eq. cbv zeta. cbn [fst snd].
  match goal with
  | |- context [_set_attributes ?o ?w0] =>
      pose proof (lumino_set_attributes o w0) as Hl;
      remember (_set_attributes o w0) as r
  end.
  unfold lumino_state in Hl.
  injection Hl as Ha Hv Ht Hc Hi. unfold name. by rewrite Ha, Hv, Ht, Hc, Hi.
Qed.

Lemma type_not_managed : "type" ∉ managed_attributes.
Proof.
  unfold managed_attributes. intros Hin.
  repeat match type of Hin with
         | _ ∈ _ :: _ => apply elem_of_cons in Hin as [Hin|Hin]; [discriminate|]
         | _ ∈ [] => by apply elem_of_nil in Hin
         end.
Qed.

(** X13.  With the custom element defined, after construction the node
    has the viewer element and one [div] as its only children,
    whatever it had before; the viewer element has the class
    [PSP_CLASS] only, no children, and the type [MIME_TYPE]; and the
    node carries [p-Widget] and still carries the classes it came
    with, the two container classes apart. *)
Theorem constructor_elements nm options (n : N) :
  let w := fst (constructor (Table := Table) (TableData := TableData)
                  true nm options n) in
  let bindto := default createElement (opt_bindto (default no_options options)) in
  children (node w) = ["perspective-viewer"; "div"]
  /\ classList (viewer w) = [PSP_CLASS]
  /\ children (viewer w) = []
  /\ getAttribute "type" (viewer w) = Some MIME_TYPE
  /\ (forall c : string,
        c <> PSP_CONTAINER_CLASS -> c <> PSP_CONTAINER_CLASS_DARK ->
        c = "p-Widget" \/ c ∈ classList bindto -> c ∈ classList (node w)).
Proof.
  rewrite constructor_eq. cbv zeta. cbn [fst].
  match goal with
  | |- context [_set_attributes ?o ?w0] =>
      pose proof (node_run_rest (call_set_attributes o) w0) as [_ Hnc];
      pose proof (viewer_run_rest (call_set_attributes o) w0) as [Hvc Hvh];
      pose proof (getAttribute_run (call_set_attributes o) "type" w0
                    type_not_managed) as Hty;
      pose proof (node_set_attributes o w0) as Hnode;
      cbn [run] in *;
      remember (_set_attributes o w0) as r
  end.
  rewrite Hnc, Hvc, Hvh, Hty.
  repeat match goal with |- _ /\ _ => split end; try reflexivity.
  intros c Hl Hd. rewrite Hnode, node_set_dark.
  destruct (js_or _ false);
    rewrite classList_remove_spec, classList_add_spec; cbn [node];
    unfold createNode; cbn [fst snd classList appendChild removeChildren];
    rewrite !classList_add_spec; tauto.
Qed.

(** X14.  With the custom element defined, the calls a construction
    makes on the viewer are [addEventListener], [toggleConfig] and
    [restore] with the plugin configuration, in this order; in
    particular [restyleElement] is not called. *)
Theorem constructor_calls nm options (n : N) :
  viewer_calls (fst (constructor (Table := Table) (TableData := TableData)
                       true nm options n))
  = [viewer_addEventListener "contextmenu";
     viewer_toggleConfig;
     viewer_restore
       [("plugin_config",
         JObj (default [] (opt_plugin_config (default no_options options))))]].
Proof.
  rewrite constructor_eq. cbv zeta. cbn [fst].
  rewrite calls_set_attributes. cbn [viewer_calls isAttached].
  rewrite (js_or_list (opt_plugin_config _)).
  unfold createNode. cbn [snd]. reflexivity.
Qed.

(** X15.  With the custom element defined, the widget of the [i]-th
    construction of a session (from 0) has the id made of its name,
    [-] and [i] in decimal. *)
Theorem session_ids args (i : nat) (w : Widget) :
  session true args !! i = Some w ->
  exists nm options,
    args !! i = Some (nm, options)
    /\ id w = default "Perspective" nm +:+ "-" +:+ number_to_string (N.of_nat i).
Proof.
  intros Hw. unfold session in Hw.
  apply construct_all_lookup in Hw as (nm & options & Ha & Hw).
  exists nm, options. split; [exact Ha|]. rewrite Hw.
  apply id_constructor.
Qed.


(** *** The cached fields and the elements *)

Lemma cache_agrees_same (w w' : Widget) :
  _dark w' = _dark w -> _editable w' = _editable w ->
  node w' = node w ->
  getAttribute "editable" (viewer w') = getAttribute "editable" (viewer w) ->
  cache_agrees w -> cache_agrees w'.
Proof.
  intros Hd He Hn Ha (d & e & ? & ? & ? & ? & Hattr).
  exists d, e. rewrite Hd, He, Hn. repeat split; try tauto.
  unfold hasAttribute in *. unfold getAttribute in Ha. by rewrite Ha.
Qed.

Lemma dark_classes (dark : bool) (w : Widget) :
  PSP_CONTAINER_CLASS <> PSP_CONTAINER_CLASS_DARK ->
  (PSP_CONTAINER_CLASS_DARK ∈ classList (node (set_dark dark w)) <-> dark = true)
  /\ (PSP_CONTAINER_CLASS ∈ classList (node (set_dark dark w)) <-> dark = false).
Proof.
  intros Hne. rewrite node_set_dark.
  destruct dark; rewrite !classList_remove_spec, !classList_add_spec;
    split; split; try done; try tauto; intros _; split; auto.
Qed.

Lemma cache_agrees_set_dark (dark : bool) (w : Widget) :
  PSP_CONTAINER_CLASS <> PSP_CONTAINER_CLASS_DARK ->
  cache_agrees w -> cache_agrees (set_dark dark w).
Proof.
  intros Hne (d & e & _ & He & _ & _ & Hattr).
  pose proof (fields_set_dark dark w) as Hf. unfold private_fields in Hf.
  injection Hf as _ _ _ Hd' He'.
  exists dark, e. rewrite Hd', He', viewer_set_dark.
  destruct (dark_classes dark w Hne). done.
Qed.

Lemma cache_agrees_set_editable (editable : bool) (w : Widget) :
  cache_agrees w -> cache_agrees (set_editable editable w).
Proof.
  intros (d & e & Hd & _ & ? & ? & _).
  pose proof (fields_set_editable editable w) as Hf. unfold private_fields in Hf.
  injection Hf as _ _ _ Hd' He'.
  exists d, editable. rewrite Hd', He', node_set_editable, viewer_set_editable.
  by rewrite hasAttribute_branch.
Qed.

Lemma cache_agrees_set_attributes o (w : Widget) :
  PSP_CONTAINER_CLASS <> PSP_CONTAINER_CLASS_DARK ->
  cache_agrees (_set_attributes o w).
Proof.
  intros Hne.
  pose proof (fields_set_attributes o w) as Hf. unfold private_fields in Hf.
  injection Hf as _ _ _ Hd He.
  exists (js_or (opt_dark o) false), (js_or (opt_editable o) false).
  rewrite Hd, He, node_set_attributes.
  destruct (dark_classes (js_or (opt_dark o) false) w Hne).
  repeat split; try tauto.
  unfold hasAttribute.
  change (attributes (viewer (_set_attributes o w)) !! "editable")
    with (getAttribute "editable" (viewer (_set_attributes o w))).
  read_attribute. by destruct (js_or (opt_editable o) false).
Qed.

Lemma dark_editable_run_other (m : Method) (w : Widget) :
  (forall options, m <> call_set_attributes options) ->
  (forall dark, m <> assign_dark dark) ->
  (forall editable, m <> assign_editable editable) ->
  _dark (run m w) = _dark w /\ _editable (run m w) = _editable w.
Proof.
  intros Hs Hd He. destruct m; cbn [run];
    try (by destruct (Hs options)); try (by destruct (Hd dark));
    try (by destruct (He editable));
    unfold onAfterShow, onResize, onActivateRequest, notifyResize, toggleConfig,
      set_columns, set_expressions, set_filters, set_selectable,
      set_plugin_config;
    repeat case_match; by split.
Qed.

Lemma cache_agrees_run (m : Method) (w : Widget) :
  PSP_CONTAINER_CLASS <> PSP_CONTAINER_CLASS_DARK ->
  cache_agrees w -> cache_agrees (run m w).
Proof.
  intros Hne Hw.
  destruct m;
    lazymatch goal with
    | |- cache_agrees (run (call_set_attributes _) _) =>
        by apply cache_agrees_set_attributes
    | |- cache_agrees (run (assign_dark _) _) => by apply cache_agrees_set_dark
    | |- cache_agrees (run (assign_editable _) _) =>
        by apply cache_agrees_set_editable
    | |- cache_agrees (run ?m _) =>
        destruct (dark_editable_run_other m w) as [Hdk Hed];
          [intros ?; discriminate..|];
        apply (cache_agrees_same w);
          [exact Hdk | exact Hed
          | apply node_run_other; intros ?; discriminate
          | apply getAttribute_run; cbn [written_attributes];
            first [ apply not_elem_of_nil
                  | intros ?%list_elem_of_singleton; discriminate ]
          | exact Hw]
    end.
Qed.

(** X16.  In every state a widget goes through, from its construction
    on and whatever is called on it, the cached [_dark] and [_editable]
    agree with the elements: the node carries the dark container class
    exactly when [_dark] is true and the light one exactly when it is
    false, and the viewer element has the [editable] attribute exactly
    when [_editable] is true.  The two class names are distinct. *)
Theorem reachable_cache_agrees bound (w : Widget) :
  PSP_CONTAINER_CLASS <> PSP_CONTAINER_CLASS_DARK ->
  reachable bound w -> cache_agrees w.
Proof.
  intros Hne Hw. induction Hw as [nm options n|m w _ IH|attached visible w _ IH].
  - rewrite constructor_eq. cbv zeta. cbn [fst].
    by apply cache_agrees_set_attributes.
  - by apply cache_agrees_run.
  - by apply (cache_agrees_same w).
Qed.


(** *** The calls on the viewer *)

Ltac not_among Hin :=
  repeat match type of Hin with
         | context [if ?c then _ else _] => destruct c
         end;
  repeat first
    [ apply elem_of_nil in Hin
    | apply elem_of_app in Hin as [Hin|Hin]
    | apply elem_of_cons in Hin as [Hin|Hin] ];
  first [ done | discriminate Hin ].

Ltac guards :=
  split; intros Hflag; try congruence; rewrite ?Hflag;
  split; intros Hin; not_among Hin.

Lemma calls_run (m : Method) (w : Widget) :
  exists new,
    viewer_calls (run m w) = viewer_calls w ++ new
    /\ (isAttached w = false ->
        (viewer_focus ∉ new) /\ (viewer_restyleElement ∉ new))
    /\ (isVisible w = false ->
        (viewer_notifyResize ∉ new) /\ (viewer_toggleConfig ∉ new)).
Proof.
  destruct m; cbn [run];
    unfold onAfterShow, onResize, onActivateRequest, notifyResize, toggleConfig,
      save, restore, load, _update, clear, replace, delete, getEditPort.
  - eexists. split; [apply calls_set_attributes|guards].
  - destruct (isVisible w) eqn:Hv;
      [exists [viewer_notifyResize] | exists []]; (split; [by rewrite ?app_nil_r|guards]).
  - destruct (isVisible w) eqn:Hv;
      [exists [viewer_notifyResize] | exists []]; (split; [by rewrite ?app_nil_r|guards]).
  - destruct (isAttached w) eqn:Ha;
      [exists [viewer_focus] | exists []]; (split; [by rewrite ?app_nil_r|guards]).
  - destruct (isVisible w) eqn:Hv;
      [exists [viewer_notifyResize] | exists []]; (split; [by rewrite ?app_nil_r|guards]).
  - destruct (isVisible w) eqn:Hv;
      [exists [viewer_toggleConfig] | exists []]; (split; [by rewrite ?app_nil_r|guards]).
  - eexists. split; [reflexivity|guards].
  - eexists. split; [reflexivity|guards].
  - eexists. split; [reflexivity|guards].
  - eexists. split; [reflexivity|guards].
  - eexists. split; [reflexivity|guards].
  - eexists. split; [reflexivity|guards].
  - eexists. split; [reflexivity|guards].
  - eexists. split; [reflexivity|guards].
  - exists []. split; [by rewrite calls_set_plugin, app_nil_r|guards].
  - exists []. split; [by rewrite calls_set_columns, app_nil_r|guards].
  - exists []. split; [by rewrite calls_set_row_pivots, app_nil_r|guards].
  - exists []. split; [by rewrite calls_set_column_pivots, app_nil_r|guards].
  - exists []. split; [by rewrite calls_set_aggregates, app_nil_r|guards].
  - exists []. split; [by rewrite calls_set_sort, app_nil_r|guards].
  - exists []. split; [by rewrite calls_set_expressions, app_nil_r|guards].
  - exists []. split; [by rewrite calls_set_filters, app_nil_r|guards].
  - eexists. split; [apply calls_set_plugin_config|].
    destruct plugin_config; guards.
  - exists []. split; [by rewrite calls_set_client, app_nil_r|guards].
  - exists []. split; [by rewrite calls_set_server, app_nil_r|guards].
  - eexists. split; [apply calls_set_dark|guards].
  - exists []. split; [by rewrite calls_set_editable, app_nil_r|guards].
  - exists []. split; [by rewrite calls_set_selectable, app_nil_r|guards].
Qed.

(** X17.  Whatever is called on a detached widget, neither [focus] nor
    [restyleElement] is called on the viewer; whatever is called on a
    widget that is not visible, neither [notifyResize] nor
    [toggleConfig] is called on the viewer. *)
Theorem calls_guarded_by_flags (m : Method) (w : Widget) :
  (isAttached w = false ->
   (viewer_focus ∉ calls_since w (run m w))
   /\ (viewer_restyleElement ∉ calls_since w (run m w)))
  /\ (isVisible w = false ->
      (viewer_notifyResize ∉ calls_since w (run m w))
      /\ (viewer_toggleConfig ∉ calls_since w (run m w))).
Proof.
  destruct (calls_run m w) as (new & Hnew & Hguards).
  unfold calls_since. by rewrite Hnew, drop_app_length.
Qed.


(** *** What construction builds stays *)

Lemma constructed_structure bound nm options (n : N) :
  let w := fst (constructor (Table := Table) (TableData := TableData)
                  bound nm options n) in
  children (node w) = ["perspective-viewer"; "div"]
  /\ classList (viewer w) = [PSP_CLASS]
  /\ children (viewer w) = []
  /\ getAttribute "type" (viewer w) = Some MIME_TYPE.
Proof.
  rewrite constructor_eq. cbv zeta. cbn [fst].
  match goal with
  | |- context [_set_attributes ?o ?w0] =>
      pose proof (node_run_rest (call_set_attributes o) w0) as [_ Hnc];
      pose proof (viewer_run_rest (call_set_attributes o) w0) as [Hvc Hvh];
      pose proof (getAttribute_run (call_set_attributes o) "type" w0
                    type_not_managed) as Hty;
      cbn [run] in *;
      remember (_set_attributes o w0) as r
  end.
  by rewrite Hnc, Hvc, Hvh, Hty.
Qed.

Lemma type_not_written (m : @Method Table TableData) :
  "type" ∉ written_attributes m.
Proof.
  destruct m; cbn [written_attributes];
    first [ apply not_elem_of_nil | apply type_not_managed
          | intros Hin%list_elem_of_singleton; discriminate Hin ].
Qed.

(** X18.  In every state a widget goes through, what [createNode] built
    is still there: the node has the viewer element and the [div] as
    its children, and the viewer element has the class [PSP_CLASS]
    only, no children, and the type [MIME_TYPE]. *)
Theorem reachable_structure bound (w : Widget) :
  reachable bound w ->
  children (node w) = ["perspective-viewer"; "div"]
  /\ classList (viewer w) = [PSP_CLASS]
  /\ children (viewer w) = []
  /\ getAttribute "type" (viewer w) = Some MIME_TYPE.
Proof.
  intros Hw. induction Hw as [nm options n|m w _ IH|attached visible w _ IH].
  - apply constructed_structure.
  - destruct IH as (Hn & Hc & Hh & Ht).
    destruct (node_run_rest m w) as [_ ->].
    destruct (viewer_run_rest m w) as [-> ->].
    by rewrite (getAttribute_run m "type" w (type_not_written m)).
  - exact IH.
Qed.

End MethodFacts.

(** ** The claims at concrete inputs *)

#[local] Existing Instance sample_utils.

Example sample_widget_id : id sample_widget = "Perspective-0".
Proof. reflexivity. Qed.

Example sample_widget_calls :
  viewer_calls sample_widget
  = [viewer_addEventListener "contextmenu"; viewer_toggleConfig;
     viewer_restore [("plugin_config", JObj [])]].
Proof. reflexivity. Qed.

(** C1 at [{}], the constructor's default. *)
Lemma set_attributes_defaults_witness :
  let r := _set_attributes no_options sample_widget in
  get_plugin r = Some "datagrid"
  /\ getAttribute "columns" (viewer r) = None
  /\ getAttribute "row-pivots" (viewer r) = Some "[]"
  /\ getAttribute "aggregates" (viewer r) = Some "{}"
  /\ get_dark r = Some false.
Proof.
  pose proof (@set_attributes_defaults unit unit sample_utils no_options sample_widget)
    as (Hp & Hc & Hr & _ & _ & _ & _ & Ha & _ & Hd & _).
  exact (conj Hp (conj (Hc eq_refl) (conj (Hr eq_refl)
           (conj (Ha eq_refl) (Hd eq_refl))))).
Defined.

(** C1 as stated fails at [options_dashed_pivots]: the
    [plugin] attribute is not the empty string that was provided, and
    the omitted [row_pivots] is not treated as an empty collection. *)
Lemma set_attributes_defaults_counterexample :
  let r := _set_attributes options_dashed_pivots sample_widget in
  opt_plugin options_dashed_pivots = Some EmptyString
  /\ get_plugin r <> opt_plugin options_dashed_pivots
  /\ opt_row_pivots options_dashed_pivots = None
  /\ getAttribute "row-pivots" (viewer r) <> Some "[]"
  /\ get_row_pivots r = Some (JArr [JStr "a"]).
Proof. vm_compute. repeat split; discriminate. Qed.

(** C2 as stated fails for [row_pivots]: the attribute is still there
    after an empty array is assigned. *)
Lemma empty_row_pivots_keeps_attribute :
  getAttribute "row-pivots" (viewer (set_row_pivots [] sample_widget)) <> None
  /\ hasAttribute "row-pivots" (viewer (set_row_pivots [] sample_widget)) = true.
Proof. vm_compute. split; [discriminate|reflexivity]. Qed.



(** C8 at two constructions with the default name. *)
Lemma widget_ids_unique_witness :
  id (fst (@constructor unit unit sample_utils true None None 0))
  <> id (fst (@constructor unit unit sample_utils true None None 1)).
Proof.
  apply (@widget_ids_unique unit unit sample_utils true
           [(None, None); (None, None)] 0 1);
    [discriminate | reflexivity | reflexivity].
Defined.

(** C9 at the sample constants, going dark. *)
Lemma dark_classes_exclusive_witness :
  @PSP_CONTAINER_CLASS sample_utils <> @PSP_CONTAINER_CLASS_DARK sample_utils
  /\ @PSP_CONTAINER_CLASS_DARK sample_utils
       ∈ classList (node (@set_dark unit unit sample_utils true sample_widget))
  /\ @PSP_CONTAINER_CLASS sample_utils
       ∉ classList (node (@set_dark unit unit sample_utils true sample_widget)).
Proof.
  split; [discriminate|].
  apply (@dark_classes_exclusive unit unit sample_utils true sample_widget).
  discriminate.
Defined.

(** ** The further properties at concrete inputs *)

(** X1 at an assignment to [columns], read at [type]. *)
Lemma attributes_frame_witness :
  ("type" ∉ written_attributes (@assign_columns unit unit [JStr "a"]))
  /\ getAttribute "type" (viewer (run (assign_columns [JStr "a"]) sample_widget))
     = getAttribute "type" (viewer sample_widget).
Proof.
  assert (Hn : "type" ∉ written_attributes (@assign_columns unit unit [JStr "a"]))
    by (intros Hin%list_elem_of_singleton; discriminate Hin).
  split; [exact Hn|]. exact (attributes_frame _ _ sample_widget Hn).
Defined.

(** X3 at [toggleConfig]. *)
Lemma forwarding_calls_frame_witness :
  forwards (@call_toggleConfig unit unit) = true
  /\ viewer (run call_toggleConfig sample_widget) = viewer sample_widget
  /\ private_fields (run call_toggleConfig sample_widget)
     = private_fields sample_widget.
Proof.
  split; [reflexivity|].
  destruct (forwarding_calls_frame call_toggleConfig sample_widget eq_refl)
    as (_ & Hv & Hf & _).
  exact (conj Hv Hf).
Defined.

(** X4 at two assignments to [sort]. *)
Lemma last_assignment_wins_witness :
  run (assign_sort [JStr "b"]) (run (assign_sort [JStr "a"]) sample_widget)
  = run (assign_sort [JStr "b"]) sample_widget.
Proof.
  exact (last_assignment_wins (assign_sort [JStr "b"]) (assign_sort [JStr "a"])
           sample_widget eq_refl eq_refl).
Defined.

(** X5 at [aggregates] and [columns], the order the source comments on. *)
Lemma assignments_commute_witness :
  run (assign_aggregates [("a", JStr "sum")])
    (run (assign_columns [JStr "a"]) sample_widget)
  = run (assign_columns [JStr "a"])
      (run (assign_aggregates [("a", JStr "sum")]) sample_widget).
Proof.
  apply (assignments_commute (assign_aggregates [("a", JStr "sum")])
           (assign_columns [JStr "a"]) sample_widget eq_refl eq_refl).
  discriminate.
Defined.

(** X7 at the class [p-Widget], going dark. *)
Lemma dark_keeps_other_classes_witness :
  "p-Widget" ∈ classList (node (set_dark true sample_widget))
  <-> "p-Widget" ∈ classList (node sample_widget).
Proof.
  apply (dark_keeps_other_classes true "p-Widget" sample_widget); discriminate.
Defined.

(** X8 at [options_dashed_pivots]. *)
Lemma set_attributes_reads_back_witness :
  options_wf options_dashed_pivots = true
  /\ get_columns (_set_attributes options_dashed_pivots sample_widget) = Some JNull
  /\ get_row_pivots (_set_attributes options_dashed_pivots sample_widget)
     = Some (JArr [JStr "a"]).
Proof.
  split; [reflexivity|].
  pose proof (set_attributes_reads_back options_dashed_pivots sample_widget eq_refl)
    as (Hc & _ & _ & Hr & _).
  exact (conj Hc Hr).
Defined.

(** X9 at [sort], from the sample widget and from it gone dark. *)
Lemma managed_attributes_determined_witness :
  "sort" ∈ managed_attributes
  /\ getAttribute "sort" (viewer (_set_attributes no_options sample_widget))
     = getAttribute "sort"
         (viewer (_set_attributes no_options (set_dark true sample_widget))).
Proof.
  assert (Hin : "sort" ∈ managed_attributes)
    by (unfold managed_attributes; rewrite !elem_of_cons; tauto).
  split; [exact Hin|].
  exact (managed_attributes_determined no_options "sort" sample_widget
           (set_dark true sample_widget) Hin).
Defined.

(** X13 at the sample widget: the node carries [p-Widget]. *)
Lemma constructor_elements_witness :
  "p-Widget" ∈ classList (node sample_widget).
Proof.
  destruct (@constructor_elements unit unit sample_utils None None 0)
    as (_ & _ & _ & _ & Hclasses).
  apply Hclasses; [discriminate | discriminate | by left].
Defined.

(** X15 at the second of two constructions. *)
Lemma session_ids_witness :
  exists nm options,
    ([(None, None); (Some "a", None)]
       : list (option string * option PerspectiveWidgetOptions)) !! 1%nat
    = Some (nm, options)
    /\ id (fst (@constructor unit unit sample_utils true (Some "a") None 1))
       = default "Perspective" nm +:+ "-" +:+ number_to_string 1.
Proof.
  exact (@session_ids unit unit sample_utils
           [(None, None); (Some "a", None)] 1%nat _ eq_refl).
Defined.

(** X16 at the sample widget after it has gone dark. *)
Lemma reachable_cache_agrees_witness :
  PSP_CONTAINER_CLASS <> PSP_CONTAINER_CLASS_DARK
  /\ reachable true (run (assign_dark true) sample_widget)
  /\ cache_agrees (run (assign_dark true) sample_widget).
Proof.
  assert (Hne : PSP_CONTAINER_CLASS <> PSP_CONTAINER_CLASS_DARK) by discriminate.
  assert (Hr : reachable true (run (assign_dark true) sample_widget))
    by (apply reachable_run; apply reachable_new).
  exact (conj Hne (conj Hr (reachable_cache_agrees true _ Hne Hr))).
Defined.

(** X17 at an activation request on the sample widget, which is not
    attached. *)
Lemma calls_guarded_by_flags_witness :
  isAttached sample_widget = false
  /\ viewer_focus
       ∉ calls_since sample_widget
           (run (call_onActivateRequest {| msg_type := "activate-request" |})
              sample_widget).
Proof.
  split; [reflexivity|].
  destruct (calls_guarded_by_flags
              (call_onActivateRequest {| msg_type := "activate-request" |})
              sample_widget) as [Ha _].
  exact (proj1 (Ha eq_refl)).
Defined.

(** X18 at the sample widget after an assignment and a resize. *)
Lemma reachable_structure_witness :
  reachable true
    (run (call_onResize {| width := 640; height := 480 |})
       (run (assign_columns [JStr "a"]) sample_widget))
  /\ getAttribute "type"
       (viewer (run (call_onResize {| width := 640; height := 480 |})
                  (run (assign_columns [JStr "a"]) sample_widget)))
     = Some MIME_TYPE.
Proof.
  assert (Hr : reachable true
                 (run (call_onResize {| width := 640; height := 480 |})
                    (run (assign_columns [JStr "a"]) sample_widget)))
    by (do 2 apply reachable_run; apply reachable_new).
  split; [exact Hr|].
  destruct (reachable_structure true _ Hr) as (_ & _ & _ & Ht). exact Ht.
Defined.
